(** * Tech Haven web client: cart reducer, session state and catalog views

    A shallow embedding of [frontend/src/App.js].  JavaScript objects that the
    code mutates in place (cart line objects) live in an explicit object store
    and are named by references, so that aliasing is visible; objects used as
    dictionaries are finite maps; [async] functions with [try]/[catch]/[finally]
    are computations in a small state-and-exception monad over the browser
    state. *)

From Stdlib Require Import ZArith String Ascii QArith Qround.
From stdpp Require Import gmap strings list fin_maps.

Local Open Scope Z_scope.

(** ** JavaScript array primitives used by the client *)

Module JsArray.

(** [Array.prototype.findIndex]: index of the first element satisfying the
    callback, [-1] when there is none. *)
Fixpoint findIndex_from {A} (p : A → bool) (l : list A) (i : Z) : Z :=
  match l with
  | [] => -1
  | x :: l' => if p x then i else findIndex_from p l' (i + 1)
  end.

Definition findIndex {A} (p : A → bool) (l : list A) : Z :=
  findIndex_from p l 0.

(** [Array.prototype.reduce] with an initial value. *)
Definition reduce {A B} (f : B → A → B) (l : list A) (init : B) : B :=
  foldl f init l.

(** [Array.prototype.slice(0, n)]. *)
Definition slice0 {A} (n : nat) (l : list A) : list A := take n l.

End JsArray.

(** ** Cart state ([cartReducer], lines 16-44) *)

Module Cart.
Import JsArray.

(** A cart line object.  Product identifiers are strings compared with
    [===]; quantities are the integers of the data model, so [+=] is integer
    addition.  [other] stands for whatever further fields the object carries
    (the server's cart lines may have more than the two the client reads); the
    reducer copies them with [{...item}] and never inspects them. *)
Record CartItem := mkItem {
  product_id : string;
  quantity : Z;
  other : list (string * string)
}.

#[export] Instance CartItem_inhabited : Inhabited CartItem :=
  populate (mkItem "" 0 []).

(** Object identity: a reference into the store of line objects. *)
Definition ref := nat.

Abbreviation Store := (gmap nat CartItem).

(** The reducer's state: it starts as [{ items: [] }] (line 102) and every
    transition returns [{ ...state, items: ... }], so [items], an array of
    line objects, is its only property.  The arrays themselves are never
    written to after they are built, only the objects in them are. *)
Record CartState := mkCart { items : list ref }.

(** [action.payload.items] of a [SET_CART] payload: the property may be
    missing, [null], or an array. *)
Inductive ItemsField :=
| items_undefined
| items_null
| items_array (l : list ref).

Inductive Action :=
| SET_CART (payload_items : ItemsField)
| ADD_ITEM (payload : ref)
| REMOVE_ITEM (payload : string)
| UPDATE_QUANTITY (payload_product_id : string) (payload_quantity : Z)
| CLEAR_CART
| UNKNOWN (type : string).

(** [x || []] on an [items] property: [undefined] and [null] are falsy,
    every array (the empty one too) is truthy. *)
Definition or_empty (f : ItemsField) : list ref :=
  match f with
  | items_undefined | items_null => []
  | items_array l => l
  end.

(** Reading an object through a reference.  A reference held by the program
    always denotes an allocated object; outside the store the lookup falls
    back on a default object, which keeps the reducer a total function. *)
Definition get (h : Store) (r : ref) : CartItem := h !!! r.

(** The object [o] after [o.quantity += q]. *)
Definition bump (o : CartItem) (q : Z) : CartItem :=
  mkItem (product_id o) (quantity o + q) (other o).

(** [obj.quantity += q], in place: the store is updated at [r], so every
    holder of the reference sees the new quantity. *)
Definition add_quantity (h : Store) (r : ref) (q : Z) : Store :=
  <[r := bump (get h r) q]> h.

(** The object literal [{ ...item, quantity: q }]. *)
Definition with_quantity (item : CartItem) (q : Z) : CartItem :=
  mkItem (product_id item) q (other item).

(** [state.items.map(item => item.product_id === pid
      ? { ...item, quantity: q } : item)]: a matching line is replaced by a
    freshly allocated copy with the new quantity, any other line is kept as
    the same object. *)
Fixpoint map_update (h : Store) (pid : string) (q : Z) (l : list ref)
  : Store * list ref :=
  match l with
  | [] => (h, [])
  | r :: l' =>
      if bool_decide (product_id (get h r) = pid) then
        let r' := fresh (dom h) in
        let h' := <[r' := with_quantity (get h r) q]> h in
        let '(h'', l'') := map_update h' pid q l' in
        (h'', r' :: l'')
      else
        let '(h'', l'') := map_update h pid q l' in
        (h'', r :: l'')
  end.

(** The reducer, as a function of the object store as well: it returns the
    store after the call next to the new state.  In the [ADD_ITEM] branch
    [newItems[existingIndex]] is read only when [existingIndex >= 0], where
    the index is in range ([findIndex_cases] below). *)
Definition cartReducer (h : Store) (state : CartState) (action : Action)
  : Store * CartState :=
  match action with
  | SET_CART payload_items =>
      (h, mkCart (or_empty payload_items))
  | ADD_ITEM payload =>
      let existingIndex :=
        findIndex
          (λ item, bool_decide (product_id (get h item) = product_id (get h payload)))
          (items state) in
      if bool_decide (existingIndex >= 0) then
        let newItems := items state in
        let line := newItems !!! Z.to_nat existingIndex in
        (add_quantity h line (quantity (get h payload)), mkCart newItems)
      else
        (h, mkCart (items state ++ [payload]))
  | REMOVE_ITEM payload =>
      (h, mkCart (filter (λ item, product_id (get h item) ≠ payload) (items state)))
  | UPDATE_QUANTITY pid q =>
      let '(h', l') := map_update h pid q (items state) in
      (h', mkCart l')
  | CLEAR_CART =>
      (h, mkCart [])
  | UNKNOWN _ =>
      (h, state)
  end.

(** What a reader of the state sees: the line objects' current contents. *)
Definition lines (h : Store) (state : CartState) : list CartItem :=
  get h <$> items state.

(** Every line of the state is an allocated object, as it always is in a
    running program. *)
Definition live (h : Store) (state : CartState) : Prop :=
  ∀ r, r ∈ items state → is_Some (h !! r).

(** The cart invariant of the data model: at most one line per product. *)
Definition distinct_products (h : Store) (state : CartState) : Prop :=
  NoDup (product_id <$> lines h state).

(** The sum of the quantities across a list of cart lines, as the
    specification words it (not taken from the code). *)
Fixpoint total_quantity (l : list CartItem) : Z :=
  match l with
  | [] => 0
  | o :: l' => quantity o + total_quantity l'
  end.

(** [Header], line 187:
    [cartState.items.reduce((total, item) => total + item.quantity, 0)]. *)
Definition cartItemCount (h : Store) (cartState : CartState) : Z :=
  reduce (λ total item, total + quantity (get h item)) (items cartState) 0.

End Cart.

(** ** Session state ([AuthProvider], lines 47-98) *)

Module Auth.

Definition Error := string.

Inductive Method := GET | POST.

(** Outcome of running a piece of JavaScript: it completes normally with a
    value or it throws (for an [async] function: the promise is fulfilled
    or rejected). *)
Inductive Completion (A : Type) :=
| normal (a : A)
| throw (e : Error).
Arguments normal {A} a.
Arguments throw {A} e.

Section Model.
(** JSON payloads (profiles, form data, response bodies) are opaque. *)
Context {Data : Type}.

Record Request := mkRequest {
  method : Method;
  url : string;
  headers : gmap string string;
  body : option Data
}.

Inductive Response :=
| fulfilled (data : Data)
| rejected (error : Error).

(** The part of the browser the provider reads and writes:
    [localStorage], [axios.defaults.headers.common], the two [useState]
    cells, and the log of HTTP requests issued so far. *)
Record Browser := mkBrowser {
  localStorage : gmap string string;
  headers_common : gmap string string;
  user : option Data;
  loading : bool;
  sent : list Request
}.

(** The server and the network: the answer to a request, given the
    requests that preceded it. *)
Variable net : list Request → Request → Response.

(** [process.env.REACT_APP_BACKEND_URL]. *)
Variable BACKEND_URL : string.

(** [String(response.data.access_token)], as [setItem] and the template
    literal coerce it. *)
Variable access_token_of : Data → string.

Definition API : string := BACKEND_URL +:+ "/api".

Definition JS (A : Type) : Type := Browser → Completion A * Browser.

Definition ret {A} (a : A) : JS A := λ w, (normal a, w).

Definition bind {A B} (m : JS A) (k : A → JS B) : JS B :=
  λ w, match m w with
       | (normal a, w') => k a w'
       | (throw e, w') => (throw e, w')
       end.

#[local] Instance JS_ret : MRet JS := @ret.
#[local] Instance JS_bind : MBind JS := λ A B k m, bind m k.

(** [try { body } catch (error) { handler } finally { finalizer }]. *)
Definition try_catch_finally {A} (body : JS A) (handler : Error → JS A)
    (finalizer : JS unit) : JS A :=
  λ w,
    let '(c1, w1) := body w in
    let '(c2, w2) :=
      match c1 with
      | normal a => (normal a, w1)
      | throw e => handler e w1
      end in
    match finalizer w2 with
    | (normal _, w3) => (c2, w3)
    | (throw e, w3) => (throw e, w3)
    end.

Definition localStorage_getItem (key : string) : JS (option string) :=
  λ w, (normal (localStorage w !! key), w).

Definition localStorage_setItem (key value : string) : JS unit :=
  λ w, (normal tt,
        mkBrowser (<[key := value]> (localStorage w)) (headers_common w)
                  (user w) (loading w) (sent w)).

Definition localStorage_removeItem (key : string) : JS unit :=
  λ w, (normal tt,
        mkBrowser (delete key (localStorage w)) (headers_common w)
                  (user w) (loading w) (sent w)).

(** [axios.defaults.headers.common[name] = value]. *)
Definition set_default_header (name value : string) : JS unit :=
  λ w, (normal tt,
        mkBrowser (localStorage w) (<[name := value]> (headers_common w))
                  (user w) (loading w) (sent w)).

(** [delete axios.defaults.headers.common[name]]. *)
Definition delete_default_header (name : string) : JS unit :=
  λ w, (normal tt,
        mkBrowser (localStorage w) (delete name (headers_common w))
                  (user w) (loading w) (sent w)).

Definition setUser (u : option Data) : JS unit :=
  λ w, (normal tt,
        mkBrowser (localStorage w) (headers_common w) u (loading w) (sent w)).

Definition setLoading (b : bool) : JS unit :=
  λ w, (normal tt,
        mkBrowser (localStorage w) (headers_common w) (user w) b (sent w)).

(** An awaited axios call: the request goes out with the default headers
    of the moment; a rejected promise is a throw at the [await]. *)
Definition axios_request (m : Method) (u : string) (b : option Data) : JS Data :=
  λ w,
    let req := mkRequest m u (headers_common w) b in
    let w' := mkBrowser (localStorage w) (headers_common w) (user w)
                        (loading w) (sent w ++ [req]) in
    match net (sent w) req with
    | fulfilled data => (normal data, w')
    | rejected e => (throw e, w')
    end.

Definition axios_get (u : string) : JS Data := axios_request GET u None.

Definition axios_post (u : string) (b : Data) : JS Data :=
  axios_request POST u (Some b).

(** Lines 61-71. *)
Definition fetchUser : JS unit :=
  try_catch_finally
    (response_data ← axios_get (API +:+ "/me");
     setUser (Some response_data))
    (λ error,
       localStorage_removeItem "token";;
       delete_default_header "Authorization")
    (setLoading false).

(** The mount effect, lines 51-59.  [if (token)] fails for [null] and for
    the empty string. *)
Definition mount_effect : JS unit :=
  token ← localStorage_getItem "token";
  match token with
  | Some t =>
      if bool_decide (t ≠ "") then
        set_default_header "Authorization" ("Bearer " +:+ t);;
        fetchUser
      else setLoading false
  | None => setLoading false
  end.

(** Lines 73-80; [credentials] is the body [{ email, password }]. *)
Definition login (credentials : Data) : JS Data :=
  response_data ← axios_post (API +:+ "/login") credentials;
  let access_token := access_token_of response_data in
  localStorage_setItem "token" access_token;;
  set_default_header "Authorization" ("Bearer " +:+ access_token);;
  fetchUser;;
  ret response_data.

(** Lines 82-85. *)
Definition register (userData : Data) : JS Data :=
  response_data ← axios_post (API +:+ "/register") userData;
  ret response_data.

(** Lines 87-91. *)
Definition logout : JS unit :=
  localStorage_removeItem "token";;
  delete_default_header "Authorization";;
  setUser None.

(** The state [AuthProvider] starts from: [useState(null)],
    [useState(true)]. *)
Definition initial (storage : gmap string string)
    (hdrs : gmap string string) (log : list Request) : Browser :=
  mkBrowser storage hdrs None true log.

End Model.

Arguments Request : clear implicits.
Arguments Response : clear implicits.
Arguments Browser : clear implicits.

End Auth.

(** ** Catalog views ([Header], [Home], [ProductsPage]) *)

Module Catalog.
Import JsArray.

(** The fields of a product the views below read. *)
Record Product := mkProduct {
  id : string;
  name : string;
  brand : string;
  category : string;
  featured : bool
}.

(** [Home], line 333: [products.filter(p => p.featured).slice(0, 3)]. *)
Definition featuredProducts (products : list Product) : list Product :=
  slice0 3 (filter (λ p, featured p = true) products).

(** [fetchProducts(filters)], lines 112-116: a GET of [path] under the API
    root whose query string is [new URLSearchParams(filters)], one parameter
    per key of the object. *)
Record CatalogRequest := mkCatalogRequest {
  path : string;
  params : gmap string string
}.

Definition fetchProducts_request (filters : gmap string string) : CatalogRequest :=
  mkCatalogRequest "/products" filters.

(** [ProductsPage]'s [useState] cells.  [filters] is an object used as a
    dictionary from the names of the filter controls to their values. *)
Record ProductsPage := mkPage {
  filters : gmap string string;
  searchTerm : string
}.

(** Lines 386-395: returns the page state after [setFilters(newFilters)]
    and the request [fetchProducts(newFilters)] sends. *)
Definition handleFilterChange (page : ProductsPage) (key value : string)
  : ProductsPage * CatalogRequest :=
  let newFilters :=
    if bool_decide (value = "") then delete key (filters page)
    else <[key := value]> (filters page) in
  (mkPage newFilters (searchTerm page), fetchProducts_request newFilters).

(** Lines 397-407. *)
Definition handleSearch (page : ProductsPage) : ProductsPage * CatalogRequest :=
  let newFilters :=
    if bool_decide (searchTerm page ≠ "") then
      <["search" := searchTerm page]> (filters page)
    else delete "search" (filters page) in
  (mkPage newFilters (searchTerm page), fetchProducts_request newFilters).

End Catalog.

(** ** The shape of the carts the application builds *)

Module CartShape.
Import Cart.

(** The lines of the state are distinct allocated objects. *)
Definition well_formed (h : Store) (state : CartState) : Prop :=
  NoDup (items state) ∧ live h state.

(** The objects an action brings along are allocated, and a [SET_CART]
    payload lists distinct objects (as a parsed response does). *)
Definition payload_allocated (h : Store) (action : Action) : Prop :=
  match action with
  | ADD_ITEM payload => is_Some (h !! payload)
  | SET_CART (items_array l) => NoDup l ∧ ∀ r, r ∈ l → is_Some (h !! r)
  | _ => True
  end.

End CartShape.

(** ** Cart and catalog state ([AppProvider], lines 101-162, and
       [InitializeData], lines 920-945) *)

Module App.
Import Cart Catalog.

(** The outcome of an awaited request: the response data, or a rejection. *)
Inductive Result (A : Type) :=
| ok (data : A)
| failed (error : string).
Arguments ok {A} data.
Arguments failed {A} error.

(** The requests the provider and the start-up component send. *)
Inductive ApiCall :=
| GET_products (params : gmap string string)
| GET_categories
| GET_cart
| POST_cart_add (product_id : string) (quantity : Z)
| POST_init_data.

(** [response.data] of [GET /cart]: an object whose [items] property may be
    missing, [null], or an array of line objects. *)
Inductive CartBody :=
| cart_no_items
| cart_null_items
| cart_items (l : list CartItem).

(** [response.data] of [GET /categories]: either list may be missing. *)
Record Facets := mkFacets {
  facet_categories : option (list string);
  facet_brands : option (list string)
}.

(** The server: its answer to each request, given the requests sent
    before. *)
Record Server := mkServer {
  products_response : list ApiCall → gmap string string → Result (list Product);
  categories_response : list ApiCall → Result Facets;
  cart_response : list ApiCall → Result CartBody;
  cart_add_response : list ApiCall → string → Z → Result unit;
  init_data_response : list ApiCall → Result unit
}.

Inductive ConsoleEntry :=
| console_log (args : list string)
| console_error (args : list string).

(** The provider's state: the [useReducer] cell (with the store its line
    objects live in), the three [useState] cells, and what has been sent and
    written to the console. *)
Record AppState := mkApp {
  objects : gmap nat CartItem;
  cartState : CartState;
  products : list Product;
  categories : list string;
  brands : list string;
  calls : list ApiCall;
  console : list ConsoleEntry
}.

(** [useReducer(cartReducer, { items: [] })], [useState([])] three times. *)
Definition initial : AppState := mkApp ∅ (mkCart []) [] [] [] [] [].

Definition called (w : AppState) (c : ApiCall) : AppState :=
  mkApp (objects w) (cartState w) (products w) (categories w) (brands w)
        (calls w ++ [c]) (console w).

Definition wrote (w : AppState) (e : ConsoleEntry) : AppState :=
  mkApp (objects w) (cartState w) (products w) (categories w) (brands w)
        (calls w) (console w ++ [e]).

Definition setProducts (l : list Product) (w : AppState) : AppState :=
  mkApp (objects w) (cartState w) l (categories w) (brands w)
        (calls w) (console w).

Definition setCategories (l : list string) (w : AppState) : AppState :=
  mkApp (objects w) (cartState w) (products w) l (brands w)
        (calls w) (console w).

Definition setBrands (l : list string) (w : AppState) : AppState :=
  mkApp (objects w) (cartState w) (products w) (categories w) l
        (calls w) (console w).

Definition with_objects (h : gmap nat CartItem) (w : AppState) : AppState :=
  mkApp h (cartState w) (products w) (categories w) (brands w)
        (calls w) (console w).

(** The cart lines the views read from the provider. *)
Definition cartLines (w : AppState) : list CartItem :=
  lines (objects w) (cartState w).

(** [cartDispatch(action)]: the reducer runs on the current state. *)
Definition cartDispatch (action : Action) (w : AppState) : AppState :=
  let '(h, s) := cartReducer (objects w) (cartState w) action in
  mkApp h s (products w) (categories w) (brands w) (calls w) (console w).

(** Parsing a response body creates a new object for every element. *)
Fixpoint allocate (h : gmap nat CartItem) (l : list CartItem)
  : gmap nat CartItem * list ref :=
  match l with
  | [] => (h, [])
  | o :: l' =>
      let r := fresh (dom h) in
      let '(h', rs) := allocate (<[r := o]> h) l' in
      (h', r :: rs)
  end.

(** Lines 112-120; [filters = {}] when the argument is omitted. *)
Definition fetchProducts (srv : Server) (filters : option (gmap string string))
    (w : AppState) : AppState :=
  let params := default ∅ filters in
  let w1 := called w (GET_products params) in
  match products_response srv (calls w) params with
  | ok data => setProducts data w1
  | failed error => wrote w1 (console_error ["Error fetching products:"; error])
  end.

(** Lines 122-130; [x || []] on each list. *)
Definition fetchCategories (srv : Server) (w : AppState) : AppState :=
  let w1 := called w GET_categories in
  match categories_response srv (calls w) with
  | ok data =>
      setBrands (default [] (facet_brands data))
        (setCategories (default [] (facet_categories data)) w1)
  | failed error => wrote w1 (console_error ["Error fetching categories:"; error])
  end.

(** Lines 132-139. *)
Definition fetchCart (srv : Server) (w : AppState) : AppState :=
  let w1 := called w GET_cart in
  match cart_response srv (calls w) with
  | ok cart_no_items => cartDispatch (SET_CART items_undefined) w1
  | ok cart_null_items => cartDispatch (SET_CART items_null) w1
  | ok (cart_items l) =>
      let '(h, refs) := allocate (objects w1) l in
      cartDispatch (SET_CART (items_array refs)) (with_objects h w1)
  | failed error => wrote w1 (console_error ["Error fetching cart:"; error])
  end.

(** Lines 141-148; [quantity = 1] when the argument is omitted.  The payload
    [{ product_id: productId, quantity }] is a new object. *)
Definition addToCart (srv : Server) (productId : string) (quantity : option Z)
    (w : AppState) : AppState :=
  let quantity := default 1 quantity in
  let w1 := called w (POST_cart_add productId quantity) in
  match cart_add_response srv (calls w) productId quantity with
  | ok _ =>
      let payload := fresh (dom (objects w1)) in
      cartDispatch (ADD_ITEM payload)
        (with_objects (<[payload := mkItem productId quantity []]> (objects w1)) w1)
  | failed error => wrote w1 (console_error ["Error adding to cart:"; error])
  end.

(** [initData], lines 925-933. *)
Definition initData (srv : Server) (w : AppState) : AppState :=
  let w1 := called w POST_init_data in
  let w2 :=
    match init_data_response srv (calls w) with
    | ok _ => wrote w1 (console_log ["Sample data initialized"])
    | failed error =>
        wrote w1 (console_log ["Data already exists or error initializing:"; error])
    end in
  fetchProducts srv None w2.

(** React may evaluate the reducer more than once for one dispatched action
    (twice in development under StrictMode), every time on the same previous
    state and the same action, and it keeps the result of the last
    evaluation.  [extra] counts the evaluations whose result is dropped;
    what they wrote into the line objects stays written. *)
Fixpoint evaluate (extra : nat) (h : gmap nat CartItem) (state : CartState)
    (action : Action) : gmap nat CartItem * CartState :=
  match extra with
  | O => cartReducer h state action
  | S extra' => evaluate extra' (cartReducer h state action).1 state action
  end.

(** [cartDispatch(action)] with [extra] dropped evaluations. *)
Definition cartDispatch_evaluating (extra : nat) (action : Action)
    (w : AppState) : AppState :=
  let '(h, s) := evaluate extra (objects w) (cartState w) action in
  mkApp h s (products w) (categories w) (brands w) (calls w) (console w).

(** [addToCart], lines 141-148, with [extra] dropped evaluations of the
    reducer for its dispatch. *)
Definition addToCart_evaluating (extra : nat) (srv : Server)
    (productId : string) (quantity : option Z) (w : AppState) : AppState :=
  let quantity := default 1 quantity in
  let w1 := called w (POST_cart_add productId quantity) in
  match cart_add_response srv (calls w) productId quantity with
  | ok _ =>
      let payload := fresh (dom (objects w1)) in
      cartDispatch_evaluating extra (ADD_ITEM payload)
        (with_objects (<[payload := mkItem productId quantity []]> (objects w1)) w1)
  | failed error => wrote w1 (console_error ["Error adding to cart:"; error])
  end.

(** What the application does to this state, one completed operation after
    the other. *)
Inductive Operation :=
| do_initData
| do_fetchProducts (filters : option (gmap string string))
| do_fetchCategories
| do_fetchCart
| do_addToCart (productId : string) (quantity : option Z).

Definition perform (srv : Server) (w : AppState) (op : Operation) : AppState :=
  match op with
  | do_initData => initData srv w
  | do_fetchProducts filters => fetchProducts srv filters w
  | do_fetchCategories => fetchCategories srv w
  | do_fetchCart => fetchCart srv w
  | do_addToCart productId quantity => addToCart srv productId quantity w
  end.

Definition run (srv : Server) (ops : list Operation) (w : AppState) : AppState :=
  foldl (perform srv) w ops.

(** [ProductsPage]: a change of a filter control, with the catalog fetch it
    triggers (lines 386-395). *)
Definition onFilterChange (srv : Server) (key value : string)
    (st : ProductsPage * AppState) : ProductsPage * AppState :=
  let '(page', request) := handleFilterChange st.1 key value in
  (page', fetchProducts srv (Some (params request)) st.2).

(** [ProductsPage]: typing in the search box (line 420). *)
Definition onSearchTermChange (value : string) (page : ProductsPage)
  : ProductsPage :=
  mkPage (filters page) value.

(** [ProductsPage]: submitting the search form (lines 397-407). *)
Definition onSearch (srv : Server) (st : ProductsPage * AppState)
  : ProductsPage * AppState :=
  let '(page', request) := handleSearch st.1 in
  (page', fetchProducts srv (Some (params request)) st.2).

(** What a visitor does on the products page. *)
Inductive PageEvent :=
| filter_changed (key value : string)
| search_typed (value : string)
| search_submitted.

Definition page_step (srv : Server) (st : ProductsPage * AppState)
    (ev : PageEvent) : ProductsPage * AppState :=
  match ev with
  | filter_changed key value => onFilterChange srv key value st
  | search_typed value => (onSearchTermChange value st.1, st.2)
  | search_submitted => onSearch srv st
  end.

Definition page_run (srv : Server) (evs : list PageEvent)
    (st : ProductsPage * AppState) : ProductsPage * AppState :=
  foldl (page_step srv) st evs.

(** [useState({})], [useState('')]. *)
Definition ProductsPage_initial : ProductsPage := mkPage ∅ "".

(** No parameter with an empty value. *)
Definition no_empty_value (m : gmap string string) : Prop :=
  ∀ k, m !! k ≠ Some "".

End App.

(** ** Pages that use the session ([ProtectedRoute], lines 905-917;
       [LoginPage], lines 686-700) *)

Module Pages.
Import Auth.

(** What a guarded route renders. *)
Inductive Screen :=
| loading_screen
| navigate_to (path : string)
| children_screen.

(** [LoginPage]'s [error] cell and the navigation it has asked for. *)
Record LoginPage := mkLoginPage {
  login_error : string;
  navigated : option string
}.

Section Model.
Context {Data : Type}.
Variable net : list (Request Data) → Request Data → Response Data.
Variable BACKEND_URL : string.
Variable access_token_of : Data → string.

(** JavaScript truthiness of a response body: [setUser(response.data)] may
    store a falsy value (a [null] or empty body), and [!user] is then true. *)
Variable truthy : Data → bool.

(** Lines 905-917. *)
Definition ProtectedRoute (w : Browser Data) : Screen :=
  if loading w then loading_screen
  else match user w with
       | None => navigate_to "/login"
       | Some profile =>
           if truthy profile then children_screen else navigate_to "/login"
       end.

(** The browser at the moment the mount effect of lines 51-59 returns.
    [fetchUser()] is started there and not awaited: it runs up to its
    [await], so the header is set and the profile request is on its way, and
    nothing of what follows the answer has happened yet. *)
Definition mount_effect_returns (w : Browser Data) : Browser Data :=
  match localStorage w !! "token" with
  | Some t =>
      if bool_decide (t ≠ "") then
        mkBrowser (localStorage w)
                  (<["Authorization" := "Bearer " +:+ t]> (headers_common w))
                  (user w) (loading w)
                  (sent w ++ [mkRequest GET (API BACKEND_URL +:+ "/me")
                                (<["Authorization" := "Bearer " +:+ t]>
                                   (headers_common w)) None])
      else mkBrowser (localStorage w) (headers_common w) (user w) false (sent w)
  | None => mkBrowser (localStorage w) (headers_common w) (user w) false (sent w)
  end.

(** [handleSubmit] of the login form, lines 692-700. *)
Definition LoginPage_handleSubmit (credentials : Data)
    (st : Browser Data * LoginPage) : Browser Data * LoginPage :=
  match login net BACKEND_URL access_token_of credentials st.1 with
  | (normal _, w') => (w', mkLoginPage (login_error st.2) (Some "/"))
  | (throw _, w') => (w', mkLoginPage "Invalid email or password" (navigated st.2))
  end.

(** The browser at the moment [login] calls [fetchUser], the server having
    answered the credentials with [data]: token stored, header set, login
    request logged. *)
Definition logged_in (w : Browser Data) (credentials data : Data) : Browser Data :=
  mkBrowser (<["token" := access_token_of data]> (localStorage w))
            (<["Authorization" := "Bearer " +:+ access_token_of data]>
               (headers_common w))
            (user w) (loading w)
            (sent w ++ [mkRequest POST (API BACKEND_URL +:+ "/login")
                                  (headers_common w) (Some credentials)]).

(** The browser at the moment the mount effect calls [fetchUser] for the
    stored token [t]. *)
Definition with_bearer (w : Browser Data) (t : string) : Browser Data :=
  mkBrowser (localStorage w)
            (<["Authorization" := "Bearer " +:+ t]> (headers_common w))
            (user w) (loading w) (sent w).

(** The operations of the auth context, as the pages call them; what a
    caller does with a rejection does not matter to the session. *)
Inductive SessionOp :=
| do_login (credentials : Data)
| do_register (userData : Data)
| do_logout
| do_fetchUser.

Definition session_perform (w : Browser Data) (op : SessionOp) : Browser Data :=
  match op with
  | do_login credentials => (login net BACKEND_URL access_token_of credentials w).2
  | do_register userData => (register net BACKEND_URL userData w).2
  | do_logout => (logout w).2
  | do_fetchUser => (fetchUser net BACKEND_URL w).2
  end.

Definition session_run (ops : list SessionOp) (w : Browser Data) : Browser Data :=
  foldl session_perform w ops.

(** The default [Authorization] header is the bearer of the stored token,
    and absent when no token is stored. *)
Definition session_consistent (w : Browser Data) : Prop :=
  headers_common w !! "Authorization"
  = (λ t, "Bearer " +:+ t) <$> localStorage w !! "token".

End Model.

Arguments SessionOp : clear implicits.

End Pages.

(** ** Smaller views ([ProductCard], [ProductDetailPage], [OrdersPage]) *)

Module Views.
Import App.

(** The five stars of a rating, lines 294-303 and 561-570:
    [[...Array(5)].map((_, i) => i < Math.floor(product.rating) ? ... )].
    A finite JavaScript number is a rational, and [Math.floor] is exact. *)
Definition star (threshold : Z) (i : Z) : string :=
  if bool_decide (i < threshold) then "text-yellow-400" else "text-gray-300".

Definition rating_stars (rating : Q) : list string :=
  star (Qfloor rating) <$> [0; 1; 2; 3; 4].

(** The stars of a review, lines 661-670: [i < review.rating], with the
    integer rating of the review. *)
Definition review_stars (rating : Z) : list string :=
  star rating <$> [0; 1; 2; 3; 4].

(** [String.prototype.split] with a one-character separator. *)
Fixpoint split_on (sep : ascii) (s : string) : list string :=
  match s with
  | EmptyString => [EmptyString]
  | String c s' =>
      if Ascii.eqb c sep then EmptyString :: split_on sep s'
      else match split_on sep s' with
           | x :: xs => String c x :: xs
           | [] => [String c EmptyString]
           end
  end.

(** [ProductDetailPage], line 493:
    [window.location.pathname.split('/')[2]] ([None] for [undefined]). *)
Definition productId (pathname : string) : option string :=
  split_on "/"%char pathname !! 2%nat.

(** The fields of an order the list below reads. *)
Record Order := mkOrder {
  order_id : string;
  order_status : string
}.

(** [OrdersPage]'s [useState] cells, lines 834-835. *)
Record OrdersPage := mkOrdersPage {
  orders : list Order;
  orders_loading : bool
}.

Definition OrdersPage_initial : OrdersPage := mkOrdersPage [] true.

(** [fetchOrders], lines 841-850, given the outcome of [GET /orders]. *)
Definition fetchOrders (response : Result (list Order)) (page : OrdersPage)
  : OrdersPage :=
  let page1 :=
    match response with
    | ok data => mkOrdersPage data (orders_loading page)
    | failed _ => page
    end in
  mkOrdersPage (orders page1) false.

Inductive OrdersView :=
| orders_loading_view
| no_orders_view
| order_list_view (l : list Order).

(** What the page renders, lines 852-900. *)
Definition OrdersPage_render (page : OrdersPage) : OrdersView :=
  if orders_loading page then orders_loading_view
  else if bool_decide (length (orders page) = 0%nat) then no_orders_view
  else order_list_view (orders page).

End Views.

(** ** More sample data *)

Module Fixtures.
Import Cart Catalog App.

Definition dell : Product := mkProduct "p-1" "XPS 13" "Dell" "Ultrabook" true.
Definition hp : Product := mkProduct "p-2" "Omen 16" "HP" "Gaming" false.

(** A catalog that knows the brand filter. *)
Definition catalog (params : gmap string string) : list Product :=
  if bool_decide (params !! "brand" = Some "Dell") then [dell] else [dell; hp].

(** A server that answers everything, and always the same. *)
Definition shop : Server :=
  mkServer (λ _ params, ok (catalog params))
           (λ _, ok (mkFacets (Some ["Ultrabook"; "Gaming"]) None))
           (λ _, ok (cart_items [mkItem "p-1" 2 [("name", "XPS 13")]]))
           (λ _ _ _, ok tt)
           (λ _, ok tt).

(** A server that cannot be reached. *)
Definition closed_shop : Server :=
  mkServer (λ _ _, failed "Network Error")
           (λ _, failed "Network Error")
           (λ _, failed "Network Error")
           (λ _ _ _, failed "Network Error")
           (λ _, failed "Network Error").

(** Session servers over string payloads: one that answers every request
    with the same text, one that accepts logins only. *)
Definition accepting : list (Auth.Request string) → Auth.Request string
                       → Auth.Response string :=
  λ _ _, Auth.fulfilled "tok-1".

Definition login_only : list (Auth.Request string) → Auth.Request string
                        → Auth.Response string :=
  λ _ request,
    match Auth.method request with
    | Auth.POST => Auth.fulfilled "tok-1"
    | Auth.GET => Auth.rejected "Request failed with status code 500"
    end.

Definition token_of : string → string := λ data, data.

Definition signed_out_browser : Auth.Browser string :=
  Auth.mkBrowser ∅ ∅ None false [].

Definition signed_in_browser : Auth.Browser string :=
  Auth.mkBrowser {["token" := "tok-1"; "theme" := "dark"]}
                 {["Authorization" := "Bearer tok-1"]}
                 (Some "profile") false [].

(** Truthiness of a string body. *)
Definition nonempty : string → bool := λ data, bool_decide (data ≠ "").

Definition branded_page : ProductsPage := mkPage {["category" := "Gaming"]} "omen".

(** A page that already filters on the brand. *)
Definition dell_page : ProductsPage := mkPage {["brand" := "Dell"]} "".

(** A server that answers the first request it gets and none after it. *)
Definition closing_shop : Server :=
  mkServer (λ hist params,
              match hist with
              | [] => ok (catalog params)
              | _ => failed "Network Error"
              end)
           (λ _, failed "Network Error")
           (λ _, failed "Network Error")
           (λ _ _ _, failed "Network Error")
           (λ _, failed "Network Error").

End Fixtures.

(** ** Sample data *)

Module Samples.
Import Cart.

(** Two line objects for the same product, as a cart response listing a
    product twice would produce, and a line for another product. *)
Definition store : gmap nat CartItem :=
  <[2%nat := mkItem "laptop-2" 5 [("name", "Ultrabook")]]>
    (<[1%nat := mkItem "laptop-1" 1 []]>
       (<[0%nat := mkItem "laptop-1" 1 []]> ∅)).

Definition empty_cart : CartState := mkCart [].

Definition cart_with_one_line : CartState := mkCart [2%nat].

Definition cart_with_two_lines : CartState := mkCart [2%nat; 0%nat].

Definition duplicated_payload : Action := SET_CART (items_array [0%nat; 1%nat]).

(** A browser that comes back with a stale token, and a server that turns
    every request down. *)
Definition returning_browser : Auth.Browser string :=
  Auth.initial {["token" := "stale"; "theme" := "dark"]} ∅ [].

Definition refusing : list (Auth.Request string) → Auth.Request string
                      → Auth.Response string :=
  λ _ _, Auth.rejected "Request failed with status code 401".

Definition backend : string := "https://shop.example".

Definition fresh_page : Catalog.ProductsPage := Catalog.mkPage ∅ "".

End Samples.

(** * Properties *)

Import JsArray Cart.

(** ** [findIndex] *)

Section FindIndex.
Context {A : Type} (p : A → bool).

Lemma findIndex_from_none (l : list A) (i : Z) :
  0 ≤ i → findIndex_from p l i = -1 → ∀ x, x ∈ l → p x = false.
Proof.
  revert i. induction l as [|a l IH]; intros i Hi Hf x Hx.
  - by apply elem_of_nil in Hx.
  - simpl in Hf. destruct (p a) eqn:Ha; [lia|].
    apply elem_of_cons in Hx as [->|Hx]; [done|].
    apply (IH (i + 1)); [lia|done..].
Qed.

Lemma findIndex_from_all_false (l : list A) (i : Z) :
  (∀ x, x ∈ l → p x = false) → findIndex_from p l i = -1.
Proof.
  revert i. induction l as [|a l IH]; intros i Hall; [done|].
  simpl. rewrite (Hall a) by apply list_elem_of_here.
  apply IH. intros x Hx. apply Hall. by apply list_elem_of_further.
Qed.

(** A non-negative result is the position of the first hit. *)
Lemma findIndex_from_first (l : list A) (i : Z) :
  0 ≤ i → findIndex_from p l i ≠ -1 →
  ∃ (k : nat) (x : A),
    findIndex_from p l i = i + Z.of_nat k ∧ l !! k = Some x ∧ p x = true ∧
    ∀ (j : nat) (y : A), (j < k)%nat → l !! j = Some y → p y = false.
Proof.
  revert i. induction l as [|a l IH]; intros i Hi Hf; [done|].
  simpl in *. destruct (p a) eqn:Ha.
  - exists 0%nat, a. repeat split; [lia|done|intros; lia].
  - destruct (IH (i + 1)) as (k & x & Hk & Hx & Hpx & Hbefore); [lia|done|].
    exists (S k), x. repeat split; [lia|done..|].
    intros [|j] y Hj Hy; simpl in Hy; [by simplify_eq|].
    apply (Hbefore j); [lia|done].
Qed.

Lemma findIndex_cases (l : list A) :
  (findIndex p l = -1 ∧ ∀ x, x ∈ l → p x = false) ∨
  (∃ (k : nat) (x : A),
     findIndex p l = Z.of_nat k ∧ l !! k = Some x ∧ p x = true ∧
     ∀ (j : nat) (y : A), (j < k)%nat → l !! j = Some y → p y = false).
Proof.
  unfold findIndex. destruct (decide (findIndex_from p l 0 = -1)) as [E|E].
  - left. split; [done|]. by apply (findIndex_from_none l 0).
  - right. destruct (findIndex_from_first l 0) as (k & x & ? & ? & ? & ?);
      [lia|done|]. exists k, x. repeat split; [lia|done..].
Qed.
End FindIndex.

(** ** [filter] keeping nothing and keeping everything *)

Section FilterFacts.
Context {A : Type} (P : A → Prop) `{∀ x, Decision (P x)}.


Lemma filter_all (l : list A) : (∀ x, x ∈ l → P x) → filter P l = l.
Proof.
  induction l as [|a l IH]; intros Hl; [done|].
  rewrite filter_cons_True by apply Hl, list_elem_of_here.
  f_equal. apply IH. intros x Hx. by apply Hl, list_elem_of_further.
Qed.
End FilterFacts.

(** ** The cart reducer *)

Section CartFacts.
Implicit Types (h : Store) (s : CartState) (r p : ref) (pid : string).



Lemma get_add_quantity_eq h r q : get (add_quantity h r q) r = bump (get h r) q.
Proof. unfold get at 1, add_quantity. apply lookup_total_insert_eq. Qed.

Lemma get_add_quantity_ne h r r' q : r' ≠ r → get (add_quantity h r q) r' = get h r'.
Proof.
  intros Hne. unfold get, add_quantity. by apply lookup_total_insert_ne.
Qed.

Lemma lookup_add_quantity_ne h r r' q : r' ≠ r → add_quantity h r q !! r' = h !! r'.
Proof. intros Hne. unfold add_quantity. by apply lookup_insert_ne. Qed.

(** In-place addition touches the quantity only. *)
Lemma product_id_add_quantity h r r' q :
  product_id (get (add_quantity h r q) r') = product_id (get h r').
Proof.
  destruct (decide (r' = r)) as [->|Hne].
  - by rewrite get_add_quantity_eq.
  - by rewrite get_add_quantity_ne.
Qed.

(** [ADD_ITEM] when the first line for the payload's product is the object
    [r], at index [i]: that object is updated in place and the array is
    copied as it is. *)
Lemma add_item_existing h s p (i : nat) r :
  items s !! i = Some r →
  product_id (get h r) = product_id (get h p) →
  (∀ (j : nat) y, (j < i)%nat → items s !! j = Some y →
                  product_id (get h y) ≠ product_id (get h p)) →
  cartReducer h s (ADD_ITEM p) = (add_quantity h r (quantity (get h p)), s).
Proof.
  intros Hi Hr Hfirst. simpl.
  destruct (findIndex_cases
    (λ item, bool_decide (product_id (get h item) = product_id (get h p)))
    (items s)) as [[_ Hnone]|(k & x & Hk & Hx & Hpx & Hbefore)].
  - specialize (Hnone r (list_elem_of_lookup_2 _ _ _ Hi)).
    by apply bool_decide_eq_false in Hnone.
  - apply bool_decide_eq_true in Hpx.
    assert (k = i) as ->.
    { destruct (Nat.lt_trichotomy k i) as [Hlt|[->|Hgt]]; [|done|].
      - by destruct (Hfirst k x Hlt Hx).
      - specialize (Hbefore i r Hgt Hi).
        by apply bool_decide_eq_false in Hbefore. }
    rewrite Hk, bool_decide_eq_true_2 by lia.
    rewrite Nat2Z.id, (list_lookup_total_correct _ _ _ Hi).
    by destruct s.
Qed.

(** [ADD_ITEM] when no line has the payload's product: the payload object
    itself becomes the last line. *)
Lemma add_item_absent h s p :
  (∀ r, r ∈ items s → product_id (get h r) ≠ product_id (get h p)) →
  cartReducer h s (ADD_ITEM p) = (h, mkCart (items s ++ [p])).
Proof.
  intros Hnone. simpl. unfold findIndex.
  rewrite findIndex_from_all_false; [done|].
  intros x Hx. apply bool_decide_eq_false. by apply Hnone.
Qed.

(** Some line matches: there is a first one. *)
Lemma first_line_for h s pid :
  (∃ r, r ∈ items s ∧ product_id (get h r) = pid) →
  ∃ (i : nat) r,
    items s !! i = Some r ∧ product_id (get h r) = pid ∧
    ∀ (j : nat) y, (j < i)%nat → items s !! j = Some y →
                   product_id (get h y) ≠ pid.
Proof.
  intros (r0 & Hr0 & Hpid).
  destruct (findIndex_cases
    (λ item, bool_decide (product_id (get h item) = pid))
    (items s)) as [[_ Hnone]|(k & x & _ & Hx & Hpx & Hbefore)].
  - specialize (Hnone r0 Hr0). by apply bool_decide_eq_false in Hnone.
  - exists k, x. apply bool_decide_eq_true in Hpx. repeat split; [done..|].
    intros j y Hj Hy. eapply bool_decide_eq_false, Hbefore; done.
Qed.

(** A larger store reads allocated objects alike. *)
Lemma get_weaken h h' r : h ⊆ h' → is_Some (h !! r) → get h' r = get h r.
Proof.
  intros Hsub [o Ho]. unfold get.
  rewrite (lookup_total_correct h r o Ho).
  apply lookup_total_correct. by eapply lookup_weaken.
Qed.

Lemma map_update_absent h pid q (l : list ref) :
  (∀ r, r ∈ l → product_id (get h r) ≠ pid) → map_update h pid q l = (h, l).
Proof.
  induction l as [|r l IH]; intros Hnone; [done|]. simpl.
  rewrite bool_decide_eq_false_2 by apply Hnone, list_elem_of_here.
  rewrite IH; [done|]. intros x Hx. by apply Hnone, list_elem_of_further.
Qed.

(** What [map] with the [UPDATE_QUANTITY] callback computes, read through the
    stores: every line for [pid] is replaced by a copy with quantity [q], the
    others are kept, and objects allocated before are not touched. *)
Lemma map_update_lines (l : list ref) h pid q :
  (∀ r, r ∈ l → is_Some (h !! r)) →
  h ⊆ (map_update h pid q l).1 ∧
  get (map_update h pid q l).1 <$> (map_update h pid q l).2
    = (λ o, if bool_decide (product_id o = pid) then with_quantity o q else o)
        <$> (get h <$> l).
Proof.
  revert h. induction l as [|r l IH]; intros h Hlive; [done|].
  assert (∀ x, x ∈ l → is_Some (h !! x)) as Hlive'
    by (intros x Hx; by apply Hlive, list_elem_of_further).
  simpl. destruct (bool_decide (product_id (get h r) = pid)) eqn:Hr.
  - set (r' := fresh (dom h)).
    set (h1 := <[r' := with_quantity (get h r) q]> h).
    assert (h ⊆ h1) as Hsub.
    { apply insert_subseteq, not_elem_of_dom, is_fresh. }
    destruct (IH h1) as [Hsub1 Heq].
    { intros x Hx. destruct (Hlive' x Hx) as [o Ho].
      exists o. by eapply lookup_weaken. }
    destruct (map_update h1 pid q l) as [h2 l2] eqn:Hm. simpl in *.
    split; [by etrans|]. f_equal.
    + rewrite (get_weaken h1 h2 r' Hsub1).
      * unfold get at 1, h1. apply lookup_total_insert_eq.
      * exists (with_quantity (get h r) q). apply lookup_insert_eq.
    + etrans; [exact Heq|]. f_equal. apply list_fmap_ext. intros j x Hx.
      apply get_weaken; [done|]. apply Hlive'. by eapply list_elem_of_lookup_2.
  - destruct (IH h Hlive') as [Hsub Heq].
    destruct (map_update h pid q l) as [h2 l2] eqn:Hm. simpl in *.
    split; [done|]. f_equal; [|done].
    apply get_weaken; [done|]. apply Hlive, list_elem_of_here.
Qed.

(** C8.  [UPDATE_QUANTITY] for a product that has no line returns the store
    and the state as they were: the same line objects in the same order, each
    with its contents unchanged, and a result is always returned. *)
Theorem update_quantity_absent h s pid q :
  (∀ r, r ∈ items s → product_id (get h r) ≠ pid) →
  cartReducer h s (UPDATE_QUANTITY pid q) = (h, s) ∧
  lines (cartReducer h s (UPDATE_QUANTITY pid q)).1
        (cartReducer h s (UPDATE_QUANTITY pid q)).2 = lines h s.
Proof.
  intros Hnone.
  assert (cartReducer h s (UPDATE_QUANTITY pid q) = (h, s)) as E.
  { unfold cartReducer. rewrite (map_update_absent h pid q _ Hnone).
    by destruct s. }
  by rewrite E.
Qed.

(** C9.  [REMOVE_ITEM] is idempotent, and on a state with no line for the
    product it returns the state unchanged. *)
Theorem remove_item_idempotent h s pid :
  let h1 := (cartReducer h s (REMOVE_ITEM pid)).1 in
  let s1 := (cartReducer h s (REMOVE_ITEM pid)).2 in
  cartReducer h1 s1 (REMOVE_ITEM pid) = (h1, s1) ∧
  ((∀ r, r ∈ items s → product_id (get h r) ≠ pid) →
   (h1, s1) = (h, s) ∧ lines h1 s1 = lines h s).
Proof.
  simpl. split.
  - do 2 f_equal. apply filter_all. intros r Hr.
    by apply list_elem_of_filter in Hr as [? _].
  - intros Hnone. rewrite filter_all by done. by destruct s.
Qed.

(** C10.  [SET_CART] ignores the previous items: a payload without an [items]
    property, or with [items: null], gives the empty list, and a payload with
    an [items] array gives exactly that array. *)
Theorem set_cart_replaces h s :
  cartReducer h s (SET_CART items_undefined) = (h, mkCart []) ∧
  cartReducer h s (SET_CART items_null) = (h, mkCart []) ∧
  (∀ l, cartReducer h s (SET_CART (items_array l)) = (h, mkCart l) ∧
        lines (cartReducer h s (SET_CART (items_array l))).1
              (cartReducer h s (SET_CART (items_array l))).2 = get h <$> l).
Proof. split; [done|]. split; [done|]. intros l. by split. Qed.

Lemma foldl_quantities h (l : list ref) (acc : Z) :
  foldl (λ total item, total + quantity (get h item)) acc l
    = acc + total_quantity (get h <$> l).
Proof.
  revert acc. induction l as [|r l IH]; intros acc; simpl; [lia|].
  rewrite IH. symmetry. apply Z.add_assoc.
Qed.

(** C5.  The count shown in the header's cart toggle is the sum of the
    quantities of the cart's lines, and it is 0 for the empty cart. *)
Theorem cart_item_count_is_total h s :
  cartItemCount h s = total_quantity (lines h s) ∧
  cartItemCount h (mkCart []) = 0.
Proof.
  split; [|done]. unfold cartItemCount, reduce, lines.
  rewrite foldl_quantities. lia.
Qed.

Lemma product_id_with_quantity (l : list CartItem) pid q :
  product_id <$>
    ((λ o, if bool_decide (product_id o = pid) then with_quantity o q else o) <$> l)
  = product_id <$> l.
Proof.
  rewrite <- list_fmap_compose. apply list_fmap_ext. intros j o _. simpl.
  by destruct (bool_decide (product_id o = pid)).
Qed.

(** C2, as the code has it.  From a state of allocated line objects with
    pairwise distinct products, [ADD_ITEM], [REMOVE_ITEM], [UPDATE_QUANTITY]
    and [CLEAR_CART] (and an action of unknown type) lead to a state with
    pairwise distinct products, whatever the payload.  [SET_CART] installs
    the payload's list as it is: without an [items] array the result is the
    empty cart, and with one the result has pairwise distinct products
    exactly when the payload's list has. *)
Theorem reducer_keeps_distinct_products h s (a : Action) :
  live h s →
  distinct_products h s →
  match a with
  | SET_CART (items_array l) =>
      distinct_products (cartReducer h s a).1 (cartReducer h s a).2
      ↔ NoDup (product_id <$> (get h <$> l))
  | _ => distinct_products (cartReducer h s a).1 (cartReducer h s a).2
  end.
Proof.
  intros Hlive Hdistinct. unfold distinct_products, lines in *.
  destruct a as [[| |l]|p|pid|pid q| |ty].
  - apply NoDup_nil_2.
  - apply NoDup_nil_2.
  - done.
  - destruct (findIndex_cases
      (λ item, bool_decide (product_id (get h item) = product_id (get h p)))
      (items s)) as [[_ Hnone]|(k & x & _ & Hx & Hpx & Hbefore)].
    + rewrite add_item_absent
        by (intros r Hr; eapply bool_decide_eq_false, Hnone; done).
      cbn [fst snd items]. rewrite !fmap_app. apply NoDup_app.
      split; [done|]. split; [|apply NoDup_singleton].
      intros y Hy Hin. apply list_elem_of_singleton in Hin as ->.
      apply list_elem_of_fmap in Hy as (o & Ho & Hin).
      apply list_elem_of_fmap in Hin as (r & -> & Hr).
      specialize (Hnone r Hr). by apply bool_decide_eq_false in Hnone.
    + apply bool_decide_eq_true in Hpx.
      rewrite (add_item_existing h s p k x Hx Hpx)
        by (intros j y Hj Hy; eapply bool_decide_eq_false, Hbefore; done).
      cbn [fst snd].
      replace (product_id <$>
                 (get (add_quantity h x (quantity (get h p))) <$> items s))
        with (product_id <$> (get h <$> items s)); [done|].
      rewrite <- !list_fmap_compose. apply list_fmap_ext. intros j r _. simpl.
      by rewrite product_id_add_quantity.
  - cbn [cartReducer fst snd items].
    eapply sublist_NoDup; [exact Hdistinct|].
    do 2 apply fmap_sublist. apply sublist_filter.
  - cbn [cartReducer].
    destruct (map_update_lines (items s) h pid q Hlive) as [_ Heq].
    destruct (map_update h pid q (items s)) as [h' l'].
    cbn [fst snd items] in *. by rewrite Heq, product_id_with_quantity.
  - apply NoDup_nil_2.
  - done.
Qed.

End CartFacts.

(** *** The cart theorems at the sample data *)

Lemma sample_no_line_for_laptop_1 :
  ∀ r, r ∈ items Samples.cart_with_one_line →
       product_id (get Samples.store r) ≠ "laptop-1".
Proof.
  intros r Hr. apply list_elem_of_singleton in Hr as ->. vm_compute. discriminate.
Defined.

Lemma sample_live : live Samples.store Samples.cart_with_one_line.
Proof.
  intros r Hr. apply list_elem_of_singleton in Hr as ->. vm_compute. eauto.
Defined.

Lemma sample_distinct : distinct_products Samples.store Samples.cart_with_one_line.
Proof. apply NoDup_singleton. Defined.


(** C2 as stated fails: from the empty cart, whose products are trivially
    distinct, a [SET_CART] whose payload lists one product twice gives a state
    with two lines for that product. *)
Lemma set_cart_installs_duplicates :
  live Samples.store Samples.empty_cart ∧
  distinct_products Samples.store Samples.empty_cart ∧
  ¬ distinct_products
      (cartReducer Samples.store Samples.empty_cart Samples.duplicated_payload).1
      (cartReducer Samples.store Samples.empty_cart Samples.duplicated_payload).2.
Proof.
  split; [|split].
  - intros r Hr. by apply elem_of_nil in Hr.
  - apply NoDup_nil_2.
  - intros Hdup. apply NoDup_cons in Hdup as [Hin _].
    apply Hin, list_elem_of_here.
Qed.

Lemma reducer_keeps_distinct_products_witness :
  live Samples.store Samples.cart_with_one_line ∧
  distinct_products Samples.store Samples.cart_with_one_line ∧
  distinct_products
    (cartReducer Samples.store Samples.cart_with_one_line (UPDATE_QUANTITY "laptop-2" 3)).1
    (cartReducer Samples.store Samples.cart_with_one_line (UPDATE_QUANTITY "laptop-2" 3)).2.
Proof.
  split; [exact sample_live|]. split; [exact sample_distinct|].
  exact (reducer_keeps_distinct_products Samples.store Samples.cart_with_one_line
           (UPDATE_QUANTITY "laptop-2" 3) sample_live sample_distinct).
Defined.

Lemma update_quantity_absent_witness :
  cartReducer Samples.store Samples.cart_with_one_line (UPDATE_QUANTITY "laptop-1" 4)
  = (Samples.store, Samples.cart_with_one_line).
Proof.
  exact (proj1 (update_quantity_absent Samples.store Samples.cart_with_one_line
                  "laptop-1" 4 sample_no_line_for_laptop_1)).
Defined.

Lemma remove_item_idempotent_witness :
  ((cartReducer Samples.store Samples.cart_with_one_line (REMOVE_ITEM "laptop-1")).1,
   (cartReducer Samples.store Samples.cart_with_one_line (REMOVE_ITEM "laptop-1")).2)
  = (Samples.store, Samples.cart_with_one_line).
Proof.
  destruct (remove_item_idempotent Samples.store Samples.cart_with_one_line "laptop-1")
    as [_ Habsent].
  exact (proj1 (Habsent sample_no_line_for_laptop_1)).
Defined.

(** ** Session state *)

Section AuthFacts.
Import Auth.
Context {Data : Type}.
Context (net : list (Request Data) → Request Data → Response Data).
Context (BACKEND_URL : string).

(** Unfold a computation down to the primitive reads and writes. *)
Local Ltac js_unfold :=
  unfold fetchUser, mount_effect, register, try_catch_finally,
    mbind, JS_bind, bind, mret, JS_ret, ret,
    axios_get, axios_post, axios_request, localStorage_getItem.

Lemma fetchUser_rejected (w : Browser Data) (e : Error) :
  net (sent w) (mkRequest GET (API BACKEND_URL +:+ "/me") (headers_common w) None)
    = rejected e →
  fetchUser net BACKEND_URL w
  = (normal tt,
     mkBrowser (delete "token" (localStorage w))
               (delete "Authorization" (headers_common w))
               (user w) false
               (sent w ++ [mkRequest GET (API BACKEND_URL +:+ "/me")
                                     (headers_common w) None])).
Proof.
  intros Hnet. js_unfold. by rewrite Hnet.
Qed.

Lemma fetchUser_fulfilled (w : Browser Data) (d : Data) :
  net (sent w) (mkRequest GET (API BACKEND_URL +:+ "/me") (headers_common w) None)
    = fulfilled d →
  fetchUser net BACKEND_URL w
  = (normal tt,
     mkBrowser (localStorage w) (headers_common w) (Some d) false
               (sent w ++ [mkRequest GET (API BACKEND_URL +:+ "/me")
                                     (headers_common w) None])).
Proof.
  intros Hnet. js_unfold. by rewrite Hnet.
Qed.

(** [fetchUser] swallows every failure: its promise is always fulfilled, and
    it always ends with the loading flag down. *)
Lemma fetchUser_settles (w : Browser Data) :
  ∃ w', fetchUser net BACKEND_URL w = (normal tt, w') ∧ loading w' = false.
Proof.
  destruct (net (sent w)
              (mkRequest GET (API BACKEND_URL +:+ "/me") (headers_common w) None))
    as [d|e] eqn:Hnet.
  - eexists. by rewrite (fetchUser_fulfilled w d Hnet).
  - eexists. by rewrite (fetchUser_rejected w e Hnet).
Qed.

(** C3.  The provider mounts with a non-empty token in local storage and no
    profile in memory, and the profile request, sent with that token as
    bearer, is rejected.  Then the effect completes without throwing, the
    token is gone from local storage (other keys are kept), the
    [Authorization] default header is gone, the profile is still absent and
    the loading flag is false. *)
Theorem failed_profile_fetch_signs_out (w : Browser Data) (t : string) (e : Error) :
  localStorage w !! "token" = Some t →
  t ≠ "" →
  user w = None →
  net (sent w)
      (mkRequest GET (API BACKEND_URL +:+ "/me")
                 (<["Authorization" := "Bearer " +:+ t]> (headers_common w)) None)
    = rejected e →
  ∃ w',
    mount_effect net BACKEND_URL w = (normal tt, w') ∧
    localStorage w' = delete "token" (localStorage w) ∧
    localStorage w' !! "token" = None ∧
    headers_common w' !! "Authorization" = None ∧
    user w' = None ∧
    loading w' = false.
Proof.
  intros Htoken Hne Huser Hnet.
  unfold mount_effect, mbind, JS_bind, bind, localStorage_getItem.
  rewrite Htoken, bool_decide_eq_true_2 by done.
  unfold set_default_header. cbv beta iota.
  rewrite fetchUser_rejected with (e := e) by exact Hnet.
  eexists. split; [done|]. simpl.
  split; [done|]. split; [apply lookup_delete_eq|].
  split; [apply lookup_delete_eq|]. done.
Qed.

(** C7.  [register] sends one POST to the registration endpoint with the form
    data as body and answers what the server answered (the response data, or
    the rejection); local storage, the default headers, the profile and the
    loading flag are as before. *)
Theorem register_keeps_session (w : Browser Data) (userData : Data) :
  let req := mkRequest POST (API BACKEND_URL +:+ "/register")
                       (headers_common w) (Some userData) in
  let w' := (register net BACKEND_URL userData w).2 in
  sent w' = sent w ++ [req] ∧
  localStorage w' = localStorage w ∧
  headers_common w' = headers_common w ∧
  user w' = user w ∧
  loading w' = loading w ∧
  (register net BACKEND_URL userData w).1
    = match net (sent w) req with
      | fulfilled data => normal data
      | rejected error => throw error
      end.
Proof.
  js_unfold. simpl. by destruct (net _ _).
Qed.

End AuthFacts.

Lemma failed_profile_fetch_signs_out_witness :
  ∃ w',
    Auth.mount_effect Samples.refusing Samples.backend Samples.returning_browser
      = (Auth.normal tt, w') ∧
    Auth.localStorage w' = delete "token" (Auth.localStorage Samples.returning_browser) ∧
    Auth.localStorage w' !! "token" = None ∧
    Auth.headers_common w' !! "Authorization" = None ∧
    Auth.user w' = None ∧
    Auth.loading w' = false.
Proof.
  apply (failed_profile_fetch_signs_out Samples.refusing Samples.backend
           Samples.returning_browser "stale"
           "Request failed with status code 401").
  - vm_compute. reflexivity.
  - discriminate.
  - reflexivity.
  - reflexivity.
Defined.

(** ** Catalog views *)

Section CatalogFacts.
Import Catalog App.

(** C4, as the code has it.  Setting a filter key that was not set and then
    clearing the control gives back the page state it started from; the
    request sent on clearing is the one for the original filters, without
    the key, and for initially empty filters it carries no parameter at
    all.  The products displayed afterwards are what the server answers to
    that request, that is, to the original filters (the unfiltered catalog
    only when there were none); when the request is rejected they stay what
    they were after the filter was set. *)
Theorem filter_set_then_clear (srv : Server) (page : ProductsPage)
    (w : AppState) (k v : string) :
  filters page !! k = None →
  v ≠ "" →
  let page1 := (handleFilterChange page k v).1 in
  let request1 := (handleFilterChange page k v).2 in
  let page2 := (handleFilterChange page1 k "").1 in
  let request2 := (handleFilterChange page1 k "").2 in
  let st1 := onFilterChange srv k v (page, w) in
  let st2 := onFilterChange srv k "" st1 in
  params request1 !! k = Some v ∧
  filters page2 = filters page ∧
  page2 = page ∧
  request2 = fetchProducts_request (filters page) ∧
  params request2 !! k = None ∧
  (filters page = ∅ → params request2 = ∅) ∧
  st2.1 = page ∧
  calls st2.2
  = calls w ++ [GET_products (<[k := v]> (filters page));
                GET_products (filters page)] ∧
  products st2.2
  = match products_response srv (calls st1.2) (filters page) with
    | ok data => data
    | failed _ => products st1.2
    end.
Proof.
  intros Hk Hv. unfold onFilterChange, handleFilterChange.
  cbn [fst snd filters searchTerm params fetchProducts_request].
  rewrite (bool_decide_eq_false_2 (v = "")) by done.
  rewrite (bool_decide_eq_true_2 ("" = "")) by done.
  rewrite delete_insert_eq, (delete_id (filters page) k Hk).
  split; [apply lookup_insert_eq|]. split; [done|].
  split; [by destruct page|]. split; [done|]. split; [done|].
  split; [done|]. split; [by destruct page|].
  unfold fetchProducts. cbn [default]. unfold Datatypes.id.
  destruct (products_response srv (calls w) (<[k:=v]> (filters page)));
    cbn [calls called setProducts wrote];
    destruct (products_response srv _ (filters page));
    cbn [calls called setProducts wrote products];
    by rewrite <- app_assoc.
Qed.

Lemma take_filter_prefix {A} (P : A → Prop) `{∀ x, Decision (P x)}
    (n : nat) (l : list A) :
  ∃ pre post,
    l = pre ++ post ∧
    take n (filter P l) = filter P pre ∧
    (length (take n (filter P l)) = n ∨ post = []).
Proof.
  revert n. induction l as [|x l IH]; intros n.
  - exists [], []. split; [done|]. split; [by destruct n|]. by right.
  - destruct n as [|n].
    + exists [], (x :: l). split; [done|]. split; [done|]. by left.
    + destruct (decide (P x)) as [HP|HP].
      * destruct (IH n) as (pre & post & -> & Htake & Hlen).
        exists (x :: pre), post. rewrite !filter_cons_True by done.
        simpl. rewrite Htake. split; [done|]. split; [done|].
        destruct Hlen as [Hlen| ->]; [left|by right].
        by rewrite <- Htake, Hlen.
      * destruct (IH (S n)) as (pre & post & -> & Htake & Hlen).
        exists (x :: pre), post. by rewrite !filter_cons_False.
Qed.

(** C6.  The home page shows at most three products, all of them featured,
    and they are the featured products of an initial stretch of the catalog
    that either yields three of them or is the whole catalog: the first up to
    three featured products, in catalog order. *)
Theorem featured_selection (products : list Product) :
  (length (featuredProducts products) ≤ 3)%nat ∧
  Forall (λ p, featured p = true) (featuredProducts products) ∧
  ∃ pre post,
    products = pre ++ post ∧
    featuredProducts products = filter (λ p, featured p = true) pre ∧
    (length (featuredProducts products) = 3%nat ∨ post = []).
Proof.
  unfold featuredProducts, JsArray.slice0. split; [|split].
  - rewrite length_take. lia.
  - apply Forall_forall. intros p Hp.
    apply (subseteq_take 3) in Hp.
    by apply list_elem_of_filter in Hp as [? _].
  - apply take_filter_prefix.
Qed.

End CatalogFacts.

Lemma filter_set_then_clear_witness :
  (Catalog.handleFilterChange
     (Catalog.handleFilterChange Samples.fresh_page "brand" "Dell").1 "brand" "").1
  = Samples.fresh_page
  ∧
  Catalog.params
    (Catalog.handleFilterChange
       (Catalog.handleFilterChange Samples.fresh_page "brand" "Dell").1 "brand" "").2
  = ∅
  ∧
  App.products
    (App.onFilterChange Fixtures.shop "brand" ""
       (App.onFilterChange Fixtures.shop "brand" "Dell"
          (Samples.fresh_page, App.initial))).2
  = [Fixtures.dell; Fixtures.hp].
Proof.
  destruct (filter_set_then_clear Fixtures.shop Samples.fresh_page App.initial
              "brand" "Dell")
    as (_ & _ & Hpage & _ & _ & Hempty & _ & _ & Hproducts).
  - reflexivity.
  - discriminate.
  - split; [exact Hpage|]. split; [apply Hempty; reflexivity|].
    exact Hproducts.
Defined.

(** C4 as stated fails on the displayed set.  With a server that answers
    every request, clearing a category filter on a page that also filters on
    the brand shows the products of that brand, not the full catalog; and
    when the request sent on clearing is rejected, the products of the filter
    just cleared stay on display. *)
Lemma cleared_filter_not_full_catalog :
  (Catalog.filters Fixtures.dell_page !! "category" = None ∧
   App.products
     (App.onFilterChange Fixtures.shop "category" ""
        (App.onFilterChange Fixtures.shop "category" "Gaming"
           (Fixtures.dell_page, App.initial))).2
   = [Fixtures.dell] ∧
   App.products (App.fetchProducts Fixtures.shop None App.initial)
   = [Fixtures.dell; Fixtures.hp])
  ∧
  (Catalog.filters Samples.fresh_page !! "brand" = None ∧
   App.products
     (App.onFilterChange Fixtures.closing_shop "brand" ""
        (App.onFilterChange Fixtures.closing_shop "brand" "Dell"
           (Samples.fresh_page, App.initial))).2
   = [Fixtures.dell] ∧
   App.products (App.fetchProducts Fixtures.closing_shop None App.initial)
   = [Fixtures.dell; Fixtures.hp]).
Proof. repeat split; reflexivity. Qed.

(** * Further properties of the client *)

(** ** More on the cart reducer *)

Section CartMore.
Import CartShape.
Implicit Types (h : Store) (s : CartState) (r p : ref) (pid : string).

Lemma live_get_weaken h h' s :
  h ⊆ h' → live h s → lines h' s = lines h s.
Proof.
  intros Hsub Hlive. unfold lines. apply list_fmap_ext. intros j r Hr.
  apply get_weaken; [done|]. apply Hlive. by eapply list_elem_of_lookup_2.
Qed.

(** X1.  [UPDATE_QUANTITY] sets the quantity of every line for the product
    to the payload's quantity, keeping the line's product and other fields,
    and leaves every other line as it is; the list keeps its length.  It
    does so on copies: no object allocated before the call is modified, so
    the previous state still reads as it did. *)
Theorem update_quantity_sets h s pid q :
  live h s →
  let h' := (cartReducer h s (UPDATE_QUANTITY pid q)).1 in
  let s' := (cartReducer h s (UPDATE_QUANTITY pid q)).2 in
  lines h' s'
    = (λ o, if bool_decide (product_id o = pid)
            then mkItem (product_id o) q (other o) else o)
        <$> lines h s ∧
  (∀ o, o ∈ lines h' s' → product_id o = pid → quantity o = q) ∧
  length (lines h' s') = length (lines h s) ∧
  h ⊆ h' ∧
  lines h' s = lines h s.
Proof.
  intros Hlive. cbn [cartReducer].
  destruct (map_update_lines (items s) h pid q Hlive) as [Hsub Heq].
  destruct (map_update h pid q (items s)) as [h' l'].
  cbn [fst snd] in *. unfold with_quantity in Heq.
  assert (lines h' (mkCart l')
          = (λ o, if bool_decide (product_id o = pid)
                  then mkItem (product_id o) q (other o) else o)
              <$> lines h s) as Hnew by exact Heq.
  rewrite Hnew. split; [done|]. split; [|split; [|split]].
  - intros o Ho Hpid. apply list_elem_of_fmap in Ho as (o0 & -> & _).
    destruct (bool_decide (product_id o0 = pid)) eqn:Ho0; [done|].
    by apply bool_decide_eq_false in Ho0.
  - apply length_fmap.
  - done.
  - by apply live_get_weaken.
Qed.


Lemma lines_filter h pid (l : list ref) :
  get h <$> filter (λ item, product_id (get h item) ≠ pid) l
  = filter (λ o, product_id o ≠ pid) (get h <$> l).
Proof.
  induction l as [|r l IH]; [done|].
  rewrite fmap_cons. destruct (decide (product_id (get h r) = pid)) as [E|E].
  - rewrite !filter_cons_False by (intros Hne; by apply Hne). exact IH.
  - rewrite !filter_cons_True by done. rewrite fmap_cons. by f_equal.
Qed.

(** X3.  [REMOVE_ITEM] drops every line for the product and nothing else: the
    lines left are the lines for other products, in their order, no line
    object is modified, and no line for the product remains. *)
Theorem remove_item_lines h s pid :
  let h' := (cartReducer h s (REMOVE_ITEM pid)).1 in
  let s' := (cartReducer h s (REMOVE_ITEM pid)).2 in
  h' = h ∧
  lines h' s' = filter (λ o, product_id o ≠ pid) (lines h s) ∧
  (∀ o, o ∈ lines h' s' → product_id o ≠ pid) ∧
  (length (lines h' s') ≤ length (lines h s))%nat.
Proof.
  cbn [cartReducer fst snd]. unfold lines. cbn [items].
  rewrite lines_filter. split; [done|]. split; [done|]. split.
  - intros o Ho. by apply list_elem_of_filter in Ho as [? _].
  - apply length_filter.
Qed.

(** X4.  Adding a product that has no line and then removing that product gives
    back the state and the store one started from. *)
Theorem add_then_remove h s p :
  (∀ r, r ∈ items s → product_id (get h r) ≠ product_id (get h p)) →
  let h1 := (cartReducer h s (ADD_ITEM p)).1 in
  let s1 := (cartReducer h s (ADD_ITEM p)).2 in
  cartReducer h1 s1 (REMOVE_ITEM (product_id (get h p))) = (h, s).
Proof.
  intros Hnone. rewrite (add_item_absent h s p Hnone).
  cbn [fst snd cartReducer items]. rewrite filter_app.
  rewrite filter_all by done.
  rewrite filter_cons_False by (intros Hne; by apply Hne).
  rewrite filter_nil, app_nil_r. by destruct s.
Qed.

Lemma total_quantity_app (l k : list CartItem) :
  total_quantity (l ++ k) = total_quantity l + total_quantity k.
Proof. induction l as [|o l IH]; simpl; [done|]. rewrite IH. lia. Qed.

Lemma cartItemCount_total h s : cartItemCount h s = total_quantity (lines h s).
Proof.
  unfold cartItemCount, reduce, lines. rewrite foldl_quantities. lia.
Qed.

(** Total quantity of the lines when one object of a duplicate-free array is
    written to. *)
Lemma total_quantity_add_quantity h (l : list ref) r q :
  NoDup l → r ∈ l →
  total_quantity (get (add_quantity h r q) <$> l)
  = total_quantity (get h <$> l) + q.
Proof.
  intros Hnodup Hr. apply list_elem_of_split in Hr as (l1 & l2 & ->).
  apply NoDup_app in Hnodup as (_ & Hl1 & Hl2).
  apply NoDup_cons in Hl2 as [Hl2 _].
  rewrite !fmap_app, !fmap_cons, !total_quantity_app. simpl.
  rewrite get_add_quantity_eq. simpl.
  rewrite (list_fmap_ext (get (add_quantity h r q)) (get h) l1).
  2:{ intros j y Hy. apply get_add_quantity_ne. intros ->.
      apply (Hl1 r); [by eapply list_elem_of_lookup_2|apply list_elem_of_here]. }
  rewrite (list_fmap_ext (get (add_quantity h r q)) (get h) l2).
  2:{ intros j y Hy. apply get_add_quantity_ne. intros ->.
      apply Hl2. by eapply list_elem_of_lookup_2. }
  lia.
Qed.

Lemma cartItemCount_add_item h s p :
  NoDup (items s) →
  cartItemCount (cartReducer h s (ADD_ITEM p)).1 (cartReducer h s (ADD_ITEM p)).2
  = cartItemCount h s + quantity (get h p).
Proof.
  intros Hnodup. rewrite !cartItemCount_total.
  destruct (findIndex_cases
    (λ item, bool_decide (product_id (get h item) = product_id (get h p)))
    (items s)) as [[_ Hnone]|(k & x & _ & Hx & Hpx & Hbefore)].
  - rewrite add_item_absent
      by (intros r Hr; eapply bool_decide_eq_false, Hnone; done).
    cbn [fst snd]. unfold lines. cbn [items].
    rewrite fmap_app, total_quantity_app. simpl. lia.
  - apply bool_decide_eq_true in Hpx.
    rewrite (add_item_existing h s p k x Hx Hpx)
      by (intros j y Hj Hy; eapply bool_decide_eq_false, Hbefore; done).
    cbn [fst snd]. unfold lines.
    apply total_quantity_add_quantity; [done|].
    by eapply list_elem_of_lookup_2.
Qed.

(** X5.  On a cart whose lines are distinct objects, [ADD_ITEM] raises the count
    shown in the header by exactly the payload's quantity, whether the
    product had a line or not. *)
Theorem cart_item_count_add h s p :
  NoDup (items s) →
  cartItemCount (cartReducer h s (ADD_ITEM p)).1 (cartReducer h s (ADD_ITEM p)).2
  = cartItemCount h s + quantity (get h p).
Proof. apply cartItemCount_add_item. Qed.

Lemma is_Some_add_quantity h r r' q :
  is_Some (h !! r') → is_Some (add_quantity h r q !! r').
Proof.
  intros Hr'. unfold add_quantity. destruct (decide (r = r')) as [->|Hne].
  - rewrite lookup_insert_eq. eauto.
  - by rewrite lookup_insert_ne.
Qed.

(** The array [map] builds for [UPDATE_QUANTITY] from distinct allocated
    objects: distinct allocated objects again, each either kept from the old
    array or new. *)
Lemma map_update_shape (l : list ref) h pid q :
  NoDup l →
  (∀ r, r ∈ l → is_Some (h !! r)) →
  NoDup (map_update h pid q l).2 ∧
  (∀ r, r ∈ (map_update h pid q l).2 → is_Some ((map_update h pid q l).1 !! r)) ∧
  (∀ r, r ∈ (map_update h pid q l).2 → r ∈ l ∨ h !! r = None).
Proof.
  revert h. induction l as [|r l IH]; intros h Hnodup Hlive.
  - simpl. split; [apply NoDup_nil_2|]. split; intros x Hx; by apply elem_of_nil in Hx.
  - apply NoDup_cons in Hnodup as [Hr Hnodup].
    assert (∀ x, x ∈ l → is_Some (h !! x)) as Hlive'
      by (intros x Hx; by apply Hlive, list_elem_of_further).
    destruct (Hlive r (list_elem_of_here _ _)) as [o Ho].
    cbn [map_update]. destruct (bool_decide (product_id (get h r) = pid)).
    + set (r' := fresh (dom h)).
      set (h1 := <[r' := with_quantity (get h r) q]> h).
      assert (h !! r' = None) as Hfresh by apply not_elem_of_dom, is_fresh.
      assert (h ⊆ h1) as Hsub by by apply insert_subseteq.
      assert (∀ x, x ∈ l → is_Some (h1 !! x)) as Hlive1.
      { intros x Hx. destruct (Hlive' x Hx) as [ox Hox].
        exists ox. by eapply lookup_weaken. }
      destruct (IH h1 Hnodup Hlive1) as (Hnd & Hlv & Horigin).
      destruct (map_update_lines l h1 pid q Hlive1) as [Hsub1 _].
      destruct (map_update h1 pid q l) as [h2 l2]. cbn [fst snd] in *.
      split; [|split].
      * apply NoDup_cons. split; [|done]. intros Hin.
        destruct (Horigin r' Hin) as [Hl|Hnone].
        -- destruct (Hlive' r' Hl) as [? ?]. congruence.
        -- unfold h1 in Hnone. by rewrite lookup_insert_eq in Hnone.
      * intros x Hx. apply elem_of_cons in Hx as [->|Hx]; [|by apply Hlv].
        exists (with_quantity (get h r) q).
        eapply lookup_weaken; [|exact Hsub1]. apply lookup_insert_eq.
      * intros x Hx. apply elem_of_cons in Hx as [->|Hx]; [by right|].
        destruct (Horigin x Hx) as [Hl|Hnone].
        -- left. by apply list_elem_of_further.
        -- right. destruct (h !! x) as [ox|] eqn:Hox; [|done].
           rewrite (lookup_weaken h h1 x ox Hox Hsub) in Hnone. done.
    + destruct (IH h Hnodup Hlive') as (Hnd & Hlv & Horigin).
      destruct (map_update_lines l h pid q Hlive') as [Hsub1 _].
      destruct (map_update h pid q l) as [h2 l2]. cbn [fst snd] in *.
      split; [|split].
      * apply NoDup_cons. split; [|done]. intros Hin.
        destruct (Horigin r Hin) as [Hl|Hnone]; [done|congruence].
      * intros x Hx. apply elem_of_cons in Hx as [->|Hx]; [|by apply Hlv].
        exists o. by eapply lookup_weaken.
      * intros x Hx. apply elem_of_cons in Hx as [->|Hx].
        -- left. apply list_elem_of_here.
        -- destruct (Horigin x Hx) as [Hl|Hnone]; [left|by right].
           by apply list_elem_of_further.
Qed.

Lemma cartReducer_well_formed h s (a : Action) :
  well_formed h s →
  payload_allocated h a →
  well_formed (cartReducer h s a).1 (cartReducer h s a).2 ∧
  dom h ⊆ dom (cartReducer h s a).1.
Proof.
  intros [Hnodup Hlive] Hpayload. unfold well_formed, live in *.
  destruct a as [[| |l]|p|pid|pid q| |ty]; cbn [payload_allocated] in Hpayload.
  - cbn. split; [|done]. split; [apply NoDup_nil_2|].
    intros r Hr; by apply elem_of_nil in Hr.
  - cbn. split; [|done]. split; [apply NoDup_nil_2|].
    intros r Hr; by apply elem_of_nil in Hr.
  - cbn. by destruct Hpayload.
  - destruct (findIndex_cases
      (λ item, bool_decide (product_id (get h item) = product_id (get h p)))
      (items s)) as [[_ Hnone]|(k & x & _ & Hx & Hpx & Hbefore)].
    + rewrite add_item_absent
        by (intros r Hr; eapply bool_decide_eq_false, Hnone; done).
      cbn [fst snd items]. split; [|done]. split.
      * apply NoDup_app. split; [done|]. split; [|apply NoDup_singleton].
        intros r Hr Hin. apply list_elem_of_singleton in Hin as ->.
        specialize (Hnone p Hr). by apply bool_decide_eq_false in Hnone.
      * intros r Hr. apply elem_of_app in Hr as [Hr|Hr]; [by apply Hlive|].
        by apply list_elem_of_singleton in Hr as ->.
    + apply bool_decide_eq_true in Hpx.
      rewrite (add_item_existing h s p k x Hx Hpx)
        by (intros j y Hj Hy; eapply bool_decide_eq_false, Hbefore; done).
      cbn [fst snd]. split; [split; [done|]|].
      * intros r Hr. by apply is_Some_add_quantity, Hlive.
      * unfold add_quantity. apply dom_insert_subseteq.
  - cbn [cartReducer fst snd items]. split; [|done]. split.
    + by apply NoDup_filter.
    + intros r Hr. apply list_elem_of_filter in Hr as [_ Hr]. by apply Hlive.
  - cbn [cartReducer].
    destruct (map_update_shape (items s) h pid q Hnodup Hlive) as (Hnd & Hlv & _).
    destruct (map_update_lines (items s) h pid q Hlive) as [Hsub _].
    destruct (map_update h pid q (items s)) as [h' l']. cbn [fst snd items] in *.
    split; [done|]. by apply subseteq_dom.
  - cbn. split; [|done]. split; [apply NoDup_nil_2|].
    intros r Hr; by apply elem_of_nil in Hr.
  - cbn. done.
Qed.

(** X6.  Every transition keeps the lines distinct allocated objects, provided
    the objects the action brings along are allocated (and, for [SET_CART],
    distinct); and it never frees an object. *)
Theorem reducer_keeps_well_formed h s (a : Action) :
  well_formed h s →
  payload_allocated h a →
  well_formed (cartReducer h s a).1 (cartReducer h s a).2 ∧
  dom h ⊆ dom (cartReducer h s a).1.
Proof. apply cartReducer_well_formed. Qed.

(** [ADD_ITEM] keeps one line per product (the merge is what it is for). *)
Lemma add_item_distinct_products h s p :
  distinct_products h s →
  distinct_products (cartReducer h s (ADD_ITEM p)).1 (cartReducer h s (ADD_ITEM p)).2.
Proof.
  intros Hdistinct. unfold distinct_products, lines in *.
  destruct (findIndex_cases
    (λ item, bool_decide (product_id (get h item) = product_id (get h p)))
    (items s)) as [[_ Hnone]|(k & x & _ & Hx & Hpx & Hbefore)].
  - rewrite add_item_absent
      by (intros r Hr; eapply bool_decide_eq_false, Hnone; done).
    cbn [fst snd items]. rewrite !fmap_app. apply NoDup_app.
    split; [done|]. split; [|apply NoDup_singleton].
    intros y Hy Hin. apply list_elem_of_singleton in Hin as ->.
    apply list_elem_of_fmap in Hy as (o & Ho & Hin).
    apply list_elem_of_fmap in Hin as (r & -> & Hr).
    specialize (Hnone r Hr). by apply bool_decide_eq_false in Hnone.
  - apply bool_decide_eq_true in Hpx.
    rewrite (add_item_existing h s p k x Hx Hpx)
      by (intros j y Hj Hy; eapply bool_decide_eq_false, Hbefore; done).
    cbn [fst snd].
    replace (product_id <$>
               (get (add_quantity h x (quantity (get h p))) <$> items s))
      with (product_id <$> (get h <$> items s)); [done|].
    rewrite <- !list_fmap_compose. apply list_fmap_ext. intros j r _. simpl.
    by rewrite product_id_add_quantity.
Qed.

End CartMore.

(** ** The provider of cart and catalog state *)

Section AppFacts.
Import CartShape Catalog App.
Implicit Types (srv : Server) (w : AppState) (h : Store).

(** Objects created while parsing: new, distinct, and holding the parsed
    values; nothing that existed is touched. *)
Lemma allocate_spec (l : list CartItem) h :
  h ⊆ (allocate h l).1 ∧
  NoDup (allocate h l).2 ∧
  (∀ r, r ∈ (allocate h l).2 →
        is_Some ((allocate h l).1 !! r) ∧ h !! r = None) ∧
  get (allocate h l).1 <$> (allocate h l).2 = l.
Proof.
  revert h. induction l as [|o l IH]; intros h.
  - simpl. split; [done|]. split; [apply NoDup_nil_2|]. split; [|done].
    intros r Hr. by apply elem_of_nil in Hr.
  - cbn [allocate]. set (r := fresh (dom h)).
    assert (h !! r = None) as Hfresh by apply not_elem_of_dom, is_fresh.
    assert (h ⊆ <[r := o]> h) as Hsub by by apply insert_subseteq.
    destruct (IH (<[r := o]> h)) as (Hsub1 & Hnd & Hnew & Hget).
    destruct (allocate (<[r := o]> h) l) as [h' rs]. cbn [fst snd] in *.
    assert (h' !! r = Some o) as Hr
      by (eapply lookup_weaken; [apply lookup_insert_eq|done]).
    split; [by etrans|]. split; [|split].
    + apply NoDup_cons. split; [|done]. intros Hin.
      destruct (Hnew r Hin) as [_ Hnone]. by rewrite lookup_insert_eq in Hnone.
    + intros x Hx. apply elem_of_cons in Hx as [->|Hx]; [by eauto|].
      destruct (Hnew x Hx) as [Hsome Hnone]. split; [done|].
      destruct (h !! x) as [ox|] eqn:Hox; [|done].
      by rewrite (lookup_weaken _ _ x ox Hox Hsub) in Hnone.
    + rewrite fmap_cons. f_equal; [|done]. unfold get.
      by apply lookup_total_correct.
Qed.

Lemma well_formed_weaken h h' (s : CartState) :
  h ⊆ h' → well_formed h s → well_formed h' s.
Proof.
  intros Hsub [Hnodup Hlive]. split; [done|]. intros r Hr.
  destruct (Hlive r Hr) as [o Ho]. exists o. by eapply lookup_weaken.
Qed.

Lemma cartDispatch_cart (a : Action) w :
  objects (cartDispatch a w) = (cartReducer (objects w) (cartState w) a).1 ∧
  cartState (cartDispatch a w) = (cartReducer (objects w) (cartState w) a).2.
Proof.
  unfold cartDispatch. by destruct (cartReducer (objects w) (cartState w) a).
Qed.

Lemma fetchCart_well_formed srv w :
  well_formed (objects w) (cartState w) →
  well_formed (objects (fetchCart srv w)) (cartState (fetchCart srv w)).
Proof.
  intros Hwf. unfold fetchCart.
  destruct (cart_response srv (calls w)) as [[| |l]|e]; [| | |done].
  - split; [apply NoDup_nil_2|]. intros r Hr. by apply elem_of_nil in Hr.
  - split; [apply NoDup_nil_2|]. intros r Hr. by apply elem_of_nil in Hr.
  - cbn [called objects].
    destruct (allocate_spec l (objects w)) as (_ & Hnd & Hnew & _).
    destruct (allocate (objects w) l) as [h refs]. cbn [fst snd] in *.
    split; [done|]. intros r Hr. by apply Hnew.
Qed.

Lemma addToCart_well_formed srv w productId quantity :
  well_formed (objects w) (cartState w) →
  well_formed (objects (addToCart srv productId quantity w))
              (cartState (addToCart srv productId quantity w)).
Proof.
  intros Hwf. unfold addToCart.
  destruct (cart_add_response srv (calls w) productId (default 1 quantity))
    as [[]|e]; [|done].
  cbn [called objects]. set (p := fresh (dom (objects w))).
  set (h := <[p := mkItem productId (default 1 quantity) []]> (objects w)).
  assert (objects w !! p = None) as Hfresh by apply not_elem_of_dom, is_fresh.
  assert (well_formed h (cartState w)) as Hwf'.
  { eapply well_formed_weaken; [|exact Hwf]. by apply insert_subseteq. }
  destruct (cartReducer_well_formed h (cartState w) (ADD_ITEM p) Hwf') as [Hres _].
  { cbn. unfold h. rewrite lookup_insert_eq. eauto. }
  destruct (cartDispatch_cart (ADD_ITEM p)
    (with_objects h (called w (POST_cart_add productId (default 1 quantity)))))
    as [-> ->].
  exact Hres.
Qed.
Lemma perform_well_formed srv w (op : Operation) :
  well_formed (objects w) (cartState w) →
  well_formed (objects (perform srv w op)) (cartState (perform srv w op)).
Proof.
  intros Hwf. destruct op as [|filters| | |productId quantity]; cbn [perform].
  - unfold initData, fetchProducts.
    destruct (init_data_response srv (calls w)); cbn [wrote called calls];
      by destruct (products_response _ _ _).
  - unfold fetchProducts. by destruct (products_response _ _ _).
  - unfold fetchCategories. by destruct (categories_response _ _).
  - by apply fetchCart_well_formed.
  - by apply addToCart_well_formed.
Qed.

(** X7.  Whatever the server answers and whatever the application does, the cart
    it holds is an array of distinct allocated line objects: no object is
    ever listed twice. *)
Theorem app_cart_well_formed srv (ops : list Operation) :
  well_formed (objects (run srv ops initial)) (cartState (run srv ops initial)).
Proof.
  assert (well_formed (objects initial) (cartState initial)) as Hinit.
  { split; [apply NoDup_nil_2|]. intros r Hr. by apply elem_of_nil in Hr. }
  unfold run. revert Hinit. generalize initial.
  induction ops as [|op ops IH]; intros w Hwf; [done|].
  simpl. by apply IH, perform_well_formed.
Qed.

(** X8.  A request that is turned down changes nothing of what the views read
    (cart lines, products, categories, brands): the failure is written to
    the console and that is all.  In particular [addToCart] touches the cart
    only after the server has accepted the addition. *)
Theorem rejected_requests_change_nothing srv w (e : string) :
  (∀ filters,
     products_response srv (calls w) (default ∅ filters) = failed e →
     fetchProducts srv filters w
     = wrote (called w (GET_products (default ∅ filters)))
             (console_error ["Error fetching products:"; e])) ∧
  (categories_response srv (calls w) = failed e →
   fetchCategories srv w
   = wrote (called w GET_categories)
           (console_error ["Error fetching categories:"; e])) ∧
  (cart_response srv (calls w) = failed e →
   fetchCart srv w
   = wrote (called w GET_cart) (console_error ["Error fetching cart:"; e])) ∧
  (∀ productId quantity,
     cart_add_response srv (calls w) productId (default 1 quantity) = failed e →
     addToCart srv productId quantity w
     = wrote (called w (POST_cart_add productId (default 1 quantity)))
             (console_error ["Error adding to cart:"; e])) ∧
  (∀ c entry,
     cartLines (wrote (called w c) entry) = cartLines w ∧
     products (wrote (called w c) entry) = products w ∧
     categories (wrote (called w c) entry) = categories w ∧
     brands (wrote (called w c) entry) = brands w).
Proof.
  split; [|split; [|split; [|split]]].
  - intros filters Hr. unfold fetchProducts. by rewrite Hr.
  - intros Hr. unfold fetchCategories. by rewrite Hr.
  - intros Hr. unfold fetchCart. by rewrite Hr.
  - intros productId quantity Hr. unfold addToCart. by rewrite Hr.
  - done.
Qed.

Lemma cartLines_fetchCart srv w :
  cartLines (fetchCart srv w)
  = match cart_response srv (calls w) with
    | ok (cart_items l) => l
    | ok _ => []
    | failed _ => cartLines w
    end.
Proof.
  unfold fetchCart, cartLines.
  destruct (cart_response srv (calls w)) as [[| |l]|e]; [done..| |done].
  cbn [called objects].
  destruct (allocate_spec l (objects w)) as (_ & _ & _ & Hget).
  by destruct (allocate (objects w) l) as [h refs].
Qed.

(** X9.  After a successful cart fetch the cart shows exactly the lines of the
    response, in its order, whatever it held before; a response without an
    [items] array empties it; a failed fetch leaves it as it was. *)
Theorem fetchCart_shows_response srv w :
  cartLines (fetchCart srv w)
  = match cart_response srv (calls w) with
    | ok (cart_items l) => l
    | ok _ => []
    | failed _ => cartLines w
    end.
Proof. apply cartLines_fetchCart. Qed.

Lemma bump_bump (o : CartItem) (a b : Z) : bump (bump o a) b = bump o (a + b).
Proof. unfold bump. cbn. f_equal. lia. Qed.

(** Evaluating [ADD_ITEM] again and again for a product without a line
    appends the payload, as one evaluation does. *)
Lemma evaluate_add_item_absent (extra : nat) h (s : CartState) (p : ref) :
  (∀ r, r ∈ items s → product_id (get h r) ≠ product_id (get h p)) →
  evaluate extra h s (ADD_ITEM p) = (h, mkCart (items s ++ [p])).
Proof.
  intros Hnone. induction extra as [|extra IH]; cbn [evaluate].
  - by apply add_item_absent.
  - by rewrite add_item_absent.
Qed.

(** Evaluating [ADD_ITEM] for a product with a line: every evaluation adds
    the payload's quantity to the line object once more. *)
Lemma evaluate_add_item_existing (extra : nat) h (s : CartState) (p : ref)
    (i : nat) (r : ref) :
  items s !! i = Some r →
  product_id (get h r) = product_id (get h p) →
  (∀ (j : nat) y, (j < i)%nat → items s !! j = Some y →
                  product_id (get h y) ≠ product_id (get h p)) →
  p ≠ r →
  (evaluate extra h s (ADD_ITEM p)).2 = s ∧
  get (evaluate extra h s (ADD_ITEM p)).1 r
  = bump (get h r) ((Z.of_nat extra + 1) * quantity (get h p)) ∧
  (∀ r', r' ≠ r → get (evaluate extra h s (ADD_ITEM p)).1 r' = get h r').
Proof.
  revert h. induction extra as [|extra IH]; intros h Hi Hr Hfirst Hpr;
    cbn [evaluate].
  - rewrite (add_item_existing h s p i r Hi Hr Hfirst). cbn [fst snd].
    split; [done|]. split.
    + rewrite get_add_quantity_eq. f_equal. lia.
    + intros r' Hne. by apply get_add_quantity_ne.
  - rewrite (add_item_existing h s p i r Hi Hr Hfirst). cbn [fst snd].
    set (q := quantity (get h p)).
    assert (get (add_quantity h r q) p = get h p) as Hp
      by (by apply get_add_quantity_ne).
    destruct (IH (add_quantity h r q)) as (Hs & Hget & Hother); [done| | |done|].
    + by rewrite !product_id_add_quantity.
    + intros j y Hj Hy. rewrite !product_id_add_quantity. by eapply Hfirst.
    + split; [done|]. split.
      * rewrite Hget, Hp, get_add_quantity_eq, bump_bump. fold q. f_equal. lia.
      * intros r' Hne. rewrite Hother by done. by apply get_add_quantity_ne.
Qed.

(** Total quantity of the lines when one object of a duplicate-free array
    has had its quantity raised and the others read as before. *)
Lemma total_quantity_one_raised h h' (l : list ref) (r : ref) (d : Z) :
  NoDup l → r ∈ l →
  get h' r = bump (get h r) d →
  (∀ r', r' ≠ r → get h' r' = get h r') →
  total_quantity (get h' <$> l) = total_quantity (get h <$> l) + d.
Proof.
  intros Hnodup Hr Hget Hother. apply list_elem_of_split in Hr as (l1 & l2 & ->).
  apply NoDup_app in Hnodup as (_ & Hl1 & Hl2).
  apply NoDup_cons in Hl2 as [Hl2 _].
  rewrite !fmap_app, !fmap_cons, !total_quantity_app. cbn [total_quantity].
  rewrite Hget. cbn [bump quantity].
  rewrite (list_fmap_ext (get h') (get h) l1).
  2:{ intros j y Hy. apply Hother. intros ->.
      apply (Hl1 r); [by eapply list_elem_of_lookup_2|apply list_elem_of_here]. }
  rewrite (list_fmap_ext (get h') (get h) l2).
  2:{ intros j y Hy. apply Hother. intros ->.
      apply Hl2. by eapply list_elem_of_lookup_2. }
  lia.
Qed.

Lemma cartDispatch_evaluating_cart (extra : nat) (a : Action) w :
  objects (cartDispatch_evaluating extra a w)
  = (evaluate extra (objects w) (cartState w) a).1 ∧
  cartState (cartDispatch_evaluating extra a w)
  = (evaluate extra (objects w) (cartState w) a).2 ∧
  calls (cartDispatch_evaluating extra a w) = calls w.
Proof.
  unfold cartDispatch_evaluating.
  by destruct (evaluate extra (objects w) (cartState w) a).
Qed.

(** X10.  When the server accepts the addition: if the product has no line
    yet, the count in the header goes up by the quantity added (1 when none
    is given), however often the reducer is evaluated for the dispatch; if
    it has one, every evaluation repeats the in-place addition, so the count
    goes up by the quantity once per evaluation: by the quantity when the
    reducer is evaluated once, by twice the quantity under the double
    evaluation of StrictMode.  Without dropped evaluations this is
    [addToCart]. *)
Theorem addToCart_raises_count srv w productId quantity (extra : nat) :
  well_formed (objects w) (cartState w) →
  cart_add_response srv (calls w) productId (default 1 quantity) = ok tt →
  cartItemCount (objects (addToCart_evaluating extra srv productId quantity w))
                (cartState (addToCart_evaluating extra srv productId quantity w))
  = cartItemCount (objects w) (cartState w)
    + (if bool_decide (productId ∈ product_id <$> cartLines w)
       then (Z.of_nat extra + 1) * default 1 quantity
       else default 1 quantity) ∧
  addToCart_evaluating 0 srv productId quantity w
  = addToCart srv productId quantity w.
Proof.
  intros [Hnodup Hlive] Hok. split; [|done].
  unfold addToCart_evaluating. rewrite Hok.
  cbn [called objects]. set (p := fresh (dom (objects w))).
  set (q := default 1 quantity).
  set (h := <[p := mkItem productId q []]> (objects w)).
  assert (objects w !! p = None) as Hfresh by apply not_elem_of_dom, is_fresh.
  assert (objects w ⊆ h) as Hsub by by apply insert_subseteq.
  assert (get h p = mkItem productId q []) as Hp
    by (unfold get, h; by rewrite lookup_total_insert_eq).
  assert (∀ r, r ∈ items (cartState w) → get h r = get (objects w) r) as Hold.
  { intros r Hr. apply get_weaken; [done|]. by apply Hlive. }
  assert (p ∉ items (cartState w)) as Hnew.
  { intros Hin. apply (is_fresh (dom (objects w))).
    apply elem_of_dom. by apply Hlive. }
  destruct (cartDispatch_evaluating_cart extra (ADD_ITEM p)
    (with_objects h (called w (POST_cart_add productId q))))
    as (-> & -> & _).
  cbn [with_objects called objects cartState].
  rewrite !cartItemCount_total. unfold cartLines, lines.
  destruct (bool_decide (productId ∈ product_id <$> (get (objects w) <$> items (cartState w))))
    eqn:Hhas.
  - apply bool_decide_eq_true in Hhas.
    apply list_elem_of_fmap in Hhas as (o & Hpid & Ho).
    apply list_elem_of_fmap in Ho as (r0 & -> & Hr0).
    destruct (first_line_for h (cartState w) productId) as (i & r & Hi & Hr & Hfirst).
    { exists r0. split; [done|]. by rewrite Hold. }
    assert (r ∈ items (cartState w)) as Hin by by eapply list_elem_of_lookup_2.
    assert (p ≠ r) as Hpr by (by intros ->).
    destruct (evaluate_add_item_existing extra h (cartState w) p i r)
      as (-> & Hget & Hother); [done|by rewrite Hp|by rewrite Hp|done|].
    rewrite (total_quantity_one_raised h _ _ r _ Hnodup Hin Hget Hother).
    rewrite Hp. cbn [Cart.quantity]. f_equal.
    f_equal. apply list_fmap_ext. intros j y Hy. apply Hold.
    by eapply list_elem_of_lookup_2.
  - apply bool_decide_eq_false in Hhas.
    rewrite evaluate_add_item_absent.
    + cbn [fst snd items]. rewrite fmap_app, total_quantity_app. cbn.
      rewrite Hp. cbn [Cart.quantity].
      rewrite (list_fmap_ext (get h) (get (objects w)) (items (cartState w)));
        [lia|].
      intros j y Hy. apply Hold. by eapply list_elem_of_lookup_2.
    + intros r Hr Heq. apply Hhas. rewrite Hp, Hold in Heq by done.
      cbn in Heq. rewrite <- Heq.
      by apply list_elem_of_fmap_2, list_elem_of_fmap_2.
Qed.

(** X11.  Adding a product twice with the default quantity, to a cart with
    no line for it, ends with the old lines followed by one line for the
    product.  The first addition appends the line with quantity 1; the
    second writes into it once per evaluation of the reducer, so the line
    ends with quantity 2 when the reducer is evaluated once for a dispatch,
    and with quantity 3 under the double evaluation of StrictMode. *)
Theorem addToCart_twice srv w (P : string) (extra : nat) :
  live (objects w) (cartState w) →
  (∀ o, o ∈ cartLines w → product_id o ≠ P) →
  cart_add_response srv (calls w) P 1 = ok tt →
  cart_add_response srv (calls w ++ [POST_cart_add P 1]) P 1 = ok tt →
  cartLines (addToCart_evaluating extra srv P None
               (addToCart_evaluating extra srv P None w))
  = cartLines w ++ [mkItem P (2 + Z.of_nat extra) []].
Proof.
  intros Hlive Hnone Hok1 Hok2.
  set (p1 := fresh (dom (objects w))).
  set (h1 := <[p1 := mkItem P 1 []]> (objects w)).
  assert (objects w !! p1 = None) as Hfresh1 by apply not_elem_of_dom, is_fresh.
  assert (objects w ⊆ h1) as Hsub1 by by apply insert_subseteq.
  assert (get h1 p1 = mkItem P 1 []) as Hp1
    by (unfold get, h1; by rewrite lookup_total_insert_eq).
  assert (∀ r, r ∈ items (cartState w) → get h1 r = get (objects w) r) as Hold1.
  { intros r Hr. apply get_weaken; [done|]. by apply Hlive. }
  assert (addToCart_evaluating extra srv P None w
          = mkApp h1 (mkCart (items (cartState w) ++ [p1])) (products w)
                  (categories w) (brands w) (calls w ++ [POST_cart_add P 1])
                  (console w)) as ->.
  { unfold addToCart_evaluating. cbn [default]. rewrite Hok1.
    unfold cartDispatch_evaluating.
    cbn [with_objects called objects cartState].
    rewrite evaluate_add_item_absent; [done|].
    intros r Hr. change (product_id (get h1 r) ≠ product_id (get h1 p1)).
    rewrite Hp1, Hold1 by done. cbn. apply Hnone.
    unfold cartLines, lines. by apply list_elem_of_fmap_2. }
  unfold addToCart_evaluating. cbn [default calls objects called]. rewrite Hok2.
  set (p2 := fresh (dom h1)).
  set (h2 := <[p2 := mkItem P 1 []]> h1).
  assert (h1 !! p2 = None) as Hfresh2 by apply not_elem_of_dom, is_fresh.
  assert (h1 ⊆ h2) as Hsub2 by by apply insert_subseteq.
  assert (get h2 p2 = mkItem P 1 []) as Hp2
    by (unfold get, h2; by rewrite lookup_total_insert_eq).
  assert (get h2 p1 = mkItem P 1 []) as Hp12.
  { rewrite <- Hp1. apply get_weaken; [done|]. unfold h1.
    rewrite lookup_insert_eq. eauto. }
  assert (p2 ≠ p1) as Hp21.
  { intros Heq. rewrite Heq in Hfresh2. unfold h1 in Hfresh2.
    by rewrite lookup_insert_eq in Hfresh2. }
  assert (∀ r, r ∈ items (cartState w) → get h2 r = get (objects w) r) as Hold2.
  { intros r Hr. rewrite <- Hold1 by done. apply get_weaken; [done|].
    destruct (Hlive r Hr) as [o Ho]. exists o. by eapply lookup_weaken. }
  assert (∀ r, r ∈ items (cartState w) → r ≠ p1) as Hne1.
  { intros r Hr ->. apply (is_fresh (dom (objects w))).
    apply elem_of_dom. by apply Hlive. }
  destruct (cartDispatch_evaluating_cart extra (ADD_ITEM p2)
    (with_objects h2
       (called (mkApp h1 (mkCart (items (cartState w) ++ [p1])) (products w)
                      (categories w) (brands w) (calls w ++ [POST_cart_add P 1])
                      (console w))
               (POST_cart_add P 1))))
    as (Hobjects & Hstate & _).
  unfold cartLines. cbn [called objects] in *. fold p2 h2 in Hobjects, Hstate |- *.
  rewrite Hobjects, Hstate. cbn [with_objects called objects cartState].
  destruct (evaluate_add_item_existing extra h2
              (mkCart (items (cartState w) ++ [p1])) p2
              (length (items (cartState w))) p1)
    as (-> & Hget & Hother).
  - cbn [items]. by rewrite lookup_app_r, Nat.sub_diag.
  - by rewrite Hp12, Hp2.
  - cbn [items]. intros j y Hj Hy. rewrite lookup_app_l in Hy by done.
    assert (y ∈ items (cartState w)) as Hin by by eapply list_elem_of_lookup_2.
    rewrite Hp2, Hold2 by done. cbn. apply Hnone.
    unfold cartLines, lines. by apply list_elem_of_fmap_2.
  - done.
  - unfold lines. cbn [items]. rewrite fmap_app. f_equal.
    + apply list_fmap_ext. intros j r Hr.
      assert (r ∈ items (cartState w)) as Hin by by eapply list_elem_of_lookup_2.
      rewrite Hother by by apply Hne1. by apply Hold2.
    + cbn. rewrite Hget, Hp12, Hp2. unfold bump. cbn. do 2 f_equal. lia.
Qed.

Lemma perform_distinct_products srv w (op : Operation) :
  (∀ hist l, cart_response srv hist = ok (cart_items l) →
             NoDup (product_id <$> l)) →
  well_formed (objects w) (cartState w) →
  distinct_products (objects w) (cartState w) →
  distinct_products (objects (perform srv w op)) (cartState (perform srv w op)).
Proof.
  intros Hsrv Hwf Hdistinct.
  destruct op as [|filters| | |productId quantity]; cbn [perform].
  - unfold initData, fetchProducts.
    destruct (init_data_response srv (calls w)); cbn [wrote called calls];
      by destruct (products_response _ _ _).
  - unfold fetchProducts. by destruct (products_response _ _ _).
  - unfold fetchCategories. by destruct (categories_response _ _).
  - pose proof (cartLines_fetchCart srv w) as Hlines.
    unfold distinct_products. unfold cartLines in Hlines. rewrite Hlines.
    destruct (cart_response srv (calls w)) as [[| |l]|e] eqn:Hr.
    + apply NoDup_nil_2.
    + apply NoDup_nil_2.
    + by eapply Hsrv.
    + exact Hdistinct.
  - unfold addToCart.
    destruct (cart_add_response srv (calls w) productId (default 1 quantity))
      as [[]|e]; [|done].
    cbn [called objects]. set (p := fresh (dom (objects w))).
    set (h := <[p := mkItem productId (default 1 quantity) []]> (objects w)).
    assert (objects w !! p = None) as Hfresh by apply not_elem_of_dom, is_fresh.
    destruct (cartDispatch_cart (ADD_ITEM p)
      (with_objects h (called w (POST_cart_add productId (default 1 quantity)))))
      as [-> ->].
    cbn [with_objects called objects cartState].
    apply add_item_distinct_products. unfold distinct_products.
    rewrite (live_get_weaken (objects w) h);
      [done|by apply insert_subseteq|by destruct Hwf].
Qed.

(** X12.  If the server never lists a product twice in a cart response, the cart
    the application holds never has two lines for one product, whatever is
    fetched and added and in whatever order. *)
Theorem app_cart_one_line_per_product srv (ops : list Operation) :
  (∀ hist l, cart_response srv hist = ok (cart_items l) →
             NoDup (product_id <$> l)) →
  distinct_products (objects (run srv ops initial))
                    (cartState (run srv ops initial)).
Proof.
  intros Hsrv.
  assert (well_formed (objects initial) (cartState initial) ∧
          distinct_products (objects initial) (cartState initial)) as Hinit.
  { split; [split|]; [apply NoDup_nil_2| |apply NoDup_nil_2].
    intros r Hr. by apply elem_of_nil in Hr. }
  unfold run. revert Hinit. generalize initial.
  induction ops as [|op ops IH]; intros w [Hwf Hdistinct]; [done|].
  simpl. apply IH. split.
  - by apply perform_well_formed.
  - by apply perform_distinct_products.
Qed.

(** X13.  The start-up routine asks for the catalog whether or not the seeding
    request succeeded; it sends exactly these two requests, and it leaves
    the cart alone. *)
Theorem initData_always_fetches srv w :
  calls (initData srv w) = calls w ++ [POST_init_data; GET_products ∅] ∧
  cartLines (initData srv w) = cartLines w ∧
  products (initData srv w)
  = match products_response srv (calls w ++ [POST_init_data]) ∅ with
    | ok data => data
    | failed _ => products w
    end.
Proof.
  unfold initData, fetchProducts.
  destruct (init_data_response srv (calls w)); cbn [wrote called calls default];
    destruct (products_response _ _ _); cbn; by rewrite <- app_assoc.
Qed.



Lemma no_empty_value_handleFilterChange (page : ProductsPage) (k v : string) :
  no_empty_value (filters page) →
  no_empty_value (filters (handleFilterChange page k v).1).
Proof.
  intros Hpage k'. unfold handleFilterChange. cbn [fst filters].
  destruct (bool_decide (v = "")) eqn:Hv.
  - destruct (decide (k = k')) as [->|Hne].
    + by rewrite lookup_delete_eq.
    + rewrite lookup_delete_ne by done. apply Hpage.
  - apply bool_decide_eq_false in Hv.
    destruct (decide (k = k')) as [->|Hne].
    + rewrite lookup_insert_eq. congruence.
    + rewrite lookup_insert_ne by done. apply Hpage.
Qed.

Lemma no_empty_value_handleSearch (page : ProductsPage) :
  no_empty_value (filters page) →
  no_empty_value (filters (handleSearch page).1).
Proof.
  intros Hpage k'. unfold handleSearch. cbn [fst filters].
  destruct (bool_decide (searchTerm page ≠ "")) eqn:Hv.
  - apply bool_decide_eq_true in Hv.
    destruct (decide ("search" = k')) as [<-|Hne].
    + rewrite lookup_insert_eq. congruence.
    + rewrite lookup_insert_ne by done. apply Hpage.
  - destruct (decide ("search" = k')) as [<-|Hne].
    + by rewrite lookup_delete_eq.
    + rewrite lookup_delete_ne by done. apply Hpage.
Qed.

Lemma page_step_no_empty_value srv (st : ProductsPage * AppState)
    (ev : PageEvent) :
  no_empty_value (filters st.1) →
  (∀ params, GET_products params ∈ calls st.2 → no_empty_value params) →
  no_empty_value (filters (page_step srv st ev).1) ∧
  (∀ params, GET_products params ∈ calls (page_step srv st ev).2 →
             no_empty_value params).
Proof.
  intros Hpage Hcalls. destruct st as [page w]. cbn [fst snd] in *.
  assert (∀ m w0, no_empty_value m →
            (∀ params, GET_products params ∈ calls w0 → no_empty_value params) →
            ∀ params, GET_products params ∈ calls (fetchProducts srv (Some m) w0) →
                      no_empty_value params) as Hfetch.
  { intros m w0 Hm Hw0 params Hin. unfold fetchProducts in Hin.
    change (default ∅ (Some m)) with m in Hin.
    assert (GET_products params ∈ calls w0 ++ [GET_products m]) as Hin'
      by (by destruct (products_response srv (calls w0) m)).
    apply elem_of_app in Hin' as [Hin'|Hin']; [by apply Hw0|].
    apply list_elem_of_singleton in Hin'. by simplify_eq. }
  destruct ev as [k v|v|]; cbn [page_step].
  - pose proof (no_empty_value_handleFilterChange page k v Hpage) as Hnew.
    unfold onFilterChange. cbn [fst snd].
    unfold handleFilterChange in *. cbn [fst snd params filters] in *.
    split; [done|]. by apply Hfetch.
  - done.
  - pose proof (no_empty_value_handleSearch page Hpage) as Hnew.
    unfold onSearch. cbn [fst snd].
    unfold handleSearch in *. cbn [fst snd params filters] in *.
    split; [done|]. by apply Hfetch.
Qed.

(** X15.  Whatever a visitor does on the products page, no catalog request ever
    carries a parameter with an empty value: a cleared control, or an empty
    search box, removes its key. *)
Theorem catalog_requests_have_no_empty_parameter srv (evs : list PageEvent)
    (params : gmap string string) :
  GET_products params ∈ calls (page_run srv evs (ProductsPage_initial, initial)).2 →
  no_empty_value params.
Proof.
  assert (∀ st,
    no_empty_value (filters st.1) →
    (∀ params, GET_products params ∈ calls st.2 → no_empty_value params) →
    ∀ params, GET_products params ∈ calls (page_run srv evs st).2 →
              no_empty_value params) as Hrun.
  { unfold page_run. induction evs as [|ev evs IH]; intros st Hpage Hcalls.
    - done.
    - simpl. destruct (page_step_no_empty_value srv st ev Hpage Hcalls).
      by apply IH. }
  apply Hrun.
  - intros k. cbn. by rewrite lookup_empty.
  - intros p Hp. cbn in Hp. by apply elem_of_nil in Hp.
Qed.

End AppFacts.

(** ** More on the session *)

Section SessionFacts.
Import Auth Pages.
Context {Data : Type}.
Context (net : list (Request Data) → Request Data → Response Data).
Context (BACKEND_URL : string).
Context (access_token_of : Data → string).
Context (truthy : Data → bool).
Implicit Types (w : Browser Data).

Local Ltac session_unfold :=
  unfold login, logout, mount_effect, register, mbind, JS_bind, bind,
    mret, JS_ret, ret, axios_post, axios_get, axios_request,
    localStorage_getItem, localStorage_setItem, localStorage_removeItem,
    set_default_header, delete_default_header, setUser, setLoading.

Lemma login_unfold w (credentials : Data) :
  login net BACKEND_URL access_token_of credentials w
  = match net (sent w) (mkRequest POST (API BACKEND_URL +:+ "/login")
                                  (headers_common w) (Some credentials)) with
    | fulfilled data =>
        (normal data,
         (fetchUser net BACKEND_URL (logged_in BACKEND_URL access_token_of w credentials data)).2)
    | rejected e =>
        (throw e,
         mkBrowser (localStorage w) (headers_common w) (user w) (loading w)
                   (sent w ++ [mkRequest POST (API BACKEND_URL +:+ "/login")
                                         (headers_common w) (Some credentials)]))
    end.
Proof.
  session_unfold. destruct (net (sent w) _) as [data|e]; [|done].
  cbn [localStorage headers_common user loading sent].
  fold (logged_in BACKEND_URL access_token_of w credentials data).
  destruct (fetchUser_settles net BACKEND_URL (logged_in BACKEND_URL access_token_of w credentials data))
    as (w' & -> & _).
  done.
Qed.

Lemma mount_effect_unfold w :
  mount_effect net BACKEND_URL w
  = match localStorage w !! "token" with
    | Some t =>
        if bool_decide (t ≠ "") then fetchUser net BACKEND_URL (with_bearer w t)
        else (normal tt,
              mkBrowser (localStorage w) (headers_common w) (user w) false (sent w))
    | None =>
        (normal tt,
         mkBrowser (localStorage w) (headers_common w) (user w) false (sent w))
    end.
Proof.
  unfold mount_effect, mbind, JS_bind, bind, localStorage_getItem.
  destruct (localStorage w !! "token") as [t|]; [|done].
  by destruct (bool_decide (t ≠ "")).
Qed.

(** X16.  Mounting without a stored token, or with an empty one, sends nothing:
    the loading flag goes down and everything else stays as it is. *)
Theorem mount_without_token w :
  localStorage w !! "token" = None ∨ localStorage w !! "token" = Some "" →
  mount_effect net BACKEND_URL w
  = (normal tt,
     mkBrowser (localStorage w) (headers_common w) (user w) false (sent w)).
Proof.
  intros [Htoken|Htoken]; by rewrite mount_effect_unfold, Htoken.
Qed.

(** X17.  Mounting with a stored token that the server accepts: one request goes
    out, carrying the token as bearer; the profile of the response becomes
    the user, the token stays in local storage and in the default headers,
    and the loading flag goes down. *)
Theorem mount_with_valid_token w (t : string) (profile : Data) :
  localStorage w !! "token" = Some t →
  t ≠ "" →
  net (sent w)
      (mkRequest GET (API BACKEND_URL +:+ "/me")
                 (<["Authorization" := "Bearer " +:+ t]> (headers_common w)) None)
    = fulfilled profile →
  mount_effect net BACKEND_URL w
  = (normal tt,
     mkBrowser (localStorage w)
               (<["Authorization" := "Bearer " +:+ t]> (headers_common w))
               (Some profile) false
               (sent w ++ [mkRequest GET (API BACKEND_URL +:+ "/me")
                             (<["Authorization" := "Bearer " +:+ t]> (headers_common w))
                             None])).
Proof.
  intros Htoken Hne Hnet.
  rewrite mount_effect_unfold, Htoken, bool_decide_eq_true_2 by done.
  by rewrite fetchUser_fulfilled with (d := profile) by exact Hnet.
Qed.

(** X18.  A login that the server accepts, followed by a successful profile fetch:
    the token of the response is stored and becomes the bearer of the
    default headers, the profile request already carries it, the profile
    becomes the user, and [login] answers the login response. *)
Theorem login_establishes_session w (credentials data profile : Data) :
  net (sent w)
      (mkRequest POST (API BACKEND_URL +:+ "/login") (headers_common w)
                 (Some credentials))
    = fulfilled data →
  net (sent (logged_in BACKEND_URL access_token_of w credentials data))
      (mkRequest GET (API BACKEND_URL +:+ "/me")
                 (headers_common (logged_in BACKEND_URL access_token_of w credentials data)) None)
    = fulfilled profile →
  ∃ w',
    login net BACKEND_URL access_token_of credentials w = (normal data, w') ∧
    localStorage w' !! "token" = Some (access_token_of data) ∧
    headers_common w' !! "Authorization"
      = Some ("Bearer " +:+ access_token_of data) ∧
    user w' = Some profile ∧
    loading w' = false ∧
    (∃ request,
       last (sent w') = Some request ∧
       method request = GET ∧
       url request = API BACKEND_URL +:+ "/me" ∧
       headers request !! "Authorization"
         = Some ("Bearer " +:+ access_token_of data)).
Proof.
  intros Hlogin Hme. rewrite login_unfold, Hlogin.
  rewrite (fetchUser_fulfilled net BACKEND_URL _ profile Hme).
  eexists. split; [done|]. cbn [snd localStorage headers_common user loading sent].
  unfold logged_in at 1 2. cbn [localStorage headers_common].
  rewrite !lookup_insert_eq. do 4 (split; [done|]).
  eexists. split; [apply last_snoc|]. cbn [method url headers].
  unfold logged_in. cbn [headers_common]. by rewrite lookup_insert_eq.
Qed.

(** X19.  A login the server refuses: [login] rejects with the server's error and
    the session is as before (token, default headers, user and loading flag
    untouched); the login form shows its one error message and does not
    navigate. *)
Theorem login_rejected_keeps_session w (credentials : Data) (e : Error)
    (page : LoginPage) :
  net (sent w)
      (mkRequest POST (API BACKEND_URL +:+ "/login") (headers_common w)
                 (Some credentials))
    = rejected e →
  let w' := (login net BACKEND_URL access_token_of credentials w).2 in
  (login net BACKEND_URL access_token_of credentials w).1 = throw e ∧
  localStorage w' = localStorage w ∧
  headers_common w' = headers_common w ∧
  user w' = user w ∧
  loading w' = loading w ∧
  (LoginPage_handleSubmit net BACKEND_URL access_token_of credentials (w, page)).2
  = mkLoginPage "Invalid email or password" (navigated page).
Proof.
  intros Hlogin. unfold LoginPage_handleSubmit. cbn [fst snd].
  by rewrite login_unfold, Hlogin.
Qed.

(** X20.  A login the server accepts while the profile fetch that follows fails:
    the token just stored is removed again together with the header, the
    user is whoever it was, and still [login] completes normally, so that
    the login form navigates to the home page. *)
Theorem login_with_failed_profile w (credentials data : Data) (e : Error)
    (page : LoginPage) :
  net (sent w)
      (mkRequest POST (API BACKEND_URL +:+ "/login") (headers_common w)
                 (Some credentials))
    = fulfilled data →
  net (sent (logged_in BACKEND_URL access_token_of w credentials data))
      (mkRequest GET (API BACKEND_URL +:+ "/me")
                 (headers_common (logged_in BACKEND_URL access_token_of w credentials data)) None)
    = rejected e →
  let w' := (login net BACKEND_URL access_token_of credentials w).2 in
  (login net BACKEND_URL access_token_of credentials w).1 = normal data ∧
  localStorage w' !! "token" = None ∧
  headers_common w' !! "Authorization" = None ∧
  user w' = user w ∧
  loading w' = false ∧
  (LoginPage_handleSubmit net BACKEND_URL access_token_of credentials (w, page)).2
  = mkLoginPage (login_error page) (Some "/").
Proof.
  intros Hlogin Hme. unfold LoginPage_handleSubmit. cbn [fst snd].
  rewrite login_unfold, Hlogin.
  rewrite (fetchUser_rejected net BACKEND_URL _ e Hme).
  cbn [fst snd localStorage headers_common user loading].
  by rewrite !lookup_delete_eq.
Qed.

(** X21.  [logout] removes the token (and no other key) and the header, clears the
    user, sends nothing and never throws; a second [logout] changes nothing
    more, and a guarded route then sends the visitor to the login page once
    the loading flag is down. *)
Theorem logout_signs_out w :
  let w' := (logout w).2 in
  (logout w).1 = normal tt ∧
  localStorage w' = delete "token" (localStorage w) ∧
  headers_common w' = delete "Authorization" (headers_common w) ∧
  localStorage w' !! "token" = None ∧
  headers_common w' !! "Authorization" = None ∧
  user w' = None ∧
  sent w' = sent w ∧
  logout w' = (normal tt, w') ∧
  (loading w = false → ProtectedRoute truthy w' = navigate_to "/login").
Proof.
  session_unfold. cbn. rewrite !lookup_delete_eq.
  rewrite !delete_delete_eq. unfold ProtectedRoute. cbn.
  repeat split; try done. by intros ->.
Qed.

(** X22.  What a guarded route shows around the provider's mount effect,
    starting from the provider's initial state.  When the effect returns:
    the loading screen if a non-empty token is stored, for the profile
    request is then pending, and the login page at once otherwise.  Once
    that request has settled: never the loading screen; the page itself
    exactly when the request succeeded with a truthy profile, and the login
    page otherwise.  The settled browser has sent what the pending one
    had. *)
Theorem guard_after_mount (storage hdrs : gmap string string)
    (log : list (Request Data)) :
  ProtectedRoute truthy (mount_effect_returns BACKEND_URL (initial storage hdrs log))
  = match storage !! "token" with
    | Some t =>
        if bool_decide (t ≠ "") then loading_screen else navigate_to "/login"
    | None => navigate_to "/login"
    end ∧
  ProtectedRoute truthy (mount_effect net BACKEND_URL (initial storage hdrs log)).2
  = match storage !! "token" with
    | Some t =>
        if bool_decide (t ≠ "") then
          match net log (mkRequest GET (API BACKEND_URL +:+ "/me")
                           (<["Authorization" := "Bearer " +:+ t]> hdrs) None) with
          | fulfilled profile =>
              if truthy profile then children_screen else navigate_to "/login"
          | rejected _ => navigate_to "/login"
          end
        else navigate_to "/login"
    | None => navigate_to "/login"
    end ∧
  sent (mount_effect net BACKEND_URL (initial storage hdrs log)).2
  = sent (mount_effect_returns BACKEND_URL (initial storage hdrs log)).
Proof.
  rewrite mount_effect_unfold. unfold mount_effect_returns.
  cbn [initial localStorage].
  destruct (storage !! "token") as [t|] eqn:Htoken; [|done].
  destruct (bool_decide (t ≠ "")); [|done].
  split; [done|].
  destruct (net log _) as [profile|e] eqn:Hnet.
  - by rewrite (fetchUser_fulfilled net BACKEND_URL
                  (with_bearer (initial storage hdrs log) t) profile Hnet).
  - by rewrite (fetchUser_rejected net BACKEND_URL
                  (with_bearer (initial storage hdrs log) t) e Hnet).
Qed.

Lemma fetchUser_consistent w :
  session_consistent w →
  session_consistent (fetchUser net BACKEND_URL w).2.
Proof.
  intros Hw. unfold session_consistent in *.
  destruct (net (sent w)
              (mkRequest GET (API BACKEND_URL +:+ "/me") (headers_common w) None))
    as [d|e] eqn:Hnet.
  - by rewrite (fetchUser_fulfilled net BACKEND_URL w d Hnet).
  - rewrite (fetchUser_rejected net BACKEND_URL w e Hnet).
    cbn [snd localStorage headers_common]. by rewrite !lookup_delete_eq.
Qed.

Lemma session_perform_consistent w (op : SessionOp Data) :
  session_consistent w →
  session_consistent (session_perform net BACKEND_URL access_token_of w op).
Proof.
  intros Hw. destruct op as [credentials|userData| |]; cbn [session_perform].
  - rewrite login_unfold. destruct (net (sent w) _) as [data|e]; [|done].
    cbn [snd]. apply fetchUser_consistent. unfold session_consistent, Pages.logged_in.
    cbn [localStorage headers_common]. by rewrite !lookup_insert_eq.
  - session_unfold. by destruct (net (sent w) _).
  - session_unfold. unfold session_consistent. cbn.
    by rewrite !lookup_delete_eq.
  - by apply fetchUser_consistent.
Qed.

(** X23.  The default [Authorization] header and the stored token never get out of
    step: starting from a browser without default [Authorization] header
    whose stored token, if any, is not the empty string, after the mount
    effect and any sequence of logins, registrations, logouts and profile
    fetches, whatever the server answers, the header is the bearer of the
    stored token, and is absent when none is stored. *)
Theorem session_stays_consistent w (ops : list (SessionOp Data)) :
  headers_common w !! "Authorization" = None →
  localStorage w !! "token" ≠ Some "" →
  session_consistent
    (session_run net BACKEND_URL access_token_of ops
       (mount_effect net BACKEND_URL w).2).
Proof.
  intros Hheader Htoken.
  assert (session_consistent (mount_effect net BACKEND_URL w).2) as Hmount.
  { rewrite mount_effect_unfold.
    destruct (localStorage w !! "token") as [t|] eqn:Ht.
    - rewrite bool_decide_eq_true_2 by congruence.
      apply fetchUser_consistent. unfold session_consistent, with_bearer.
      cbn [localStorage headers_common]. by rewrite Ht, lookup_insert_eq.
    - unfold session_consistent. cbn. by rewrite Ht. }
  unfold session_run. revert Hmount. generalize (mount_effect net BACKEND_URL w).2.
  induction ops as [|op ops IH]; intros w0 Hw0; [done|].
  simpl. by apply IH, session_perform_consistent.
Qed.

End SessionFacts.

(** ** More on the products page *)

Section FilterFacts2.
Import Catalog.
Implicit Types (page : ProductsPage) (k v : string).

(** X24.  A change of one filter control touches that key only: every other filter
    and the search box keep their value, the changed key holds the new value
    (or is absent when the value is empty), and the request carries the
    whole set of filters the page now holds. *)
Theorem filter_change_touches_one_key page k v :
  let page' := (handleFilterChange page k v).1 in
  let request := (handleFilterChange page k v).2 in
  (∀ k', k' ≠ k → filters page' !! k' = filters page !! k') ∧
  filters page' !! k = (if bool_decide (v = "") then None else Some v) ∧
  searchTerm page' = searchTerm page ∧
  params request = filters page'.
Proof.
  unfold handleFilterChange. cbn [fst snd filters searchTerm params].
  destruct (bool_decide (v = "")).
  - split; [|by rewrite lookup_delete_eq].
    intros k' Hne. by rewrite lookup_delete_ne.
  - split; [|by rewrite lookup_insert_eq].
    intros k' Hne. by rewrite lookup_insert_ne.
Qed.

(** X25.  Filters are replaceable by key and independent across keys: changing the
    same control twice is changing it to the last value, and changes of two
    different controls give the same filters in either order. *)
Theorem filter_changes_compose page k v1 v2 k' v' :
  handleFilterChange (handleFilterChange page k v1).1 k v2
  = handleFilterChange page k v2 ∧
  (k ≠ k' →
   filters (handleFilterChange (handleFilterChange page k v1).1 k' v').1
   = filters (handleFilterChange (handleFilterChange page k' v').1 k v1).1).
Proof.
  unfold handleFilterChange. cbn [fst snd filters searchTerm]. split.
  - destruct (bool_decide (v1 = "")), (bool_decide (v2 = ""));
      by rewrite ?delete_delete_eq, ?insert_delete_eq, ?delete_insert_eq,
                 ?insert_insert_eq.
  - intros Hne.
    destruct (bool_decide (v1 = "")), (bool_decide (v' = "")).
    + apply delete_delete.
    + by rewrite delete_insert_ne.
    + by rewrite delete_insert_ne.
    + by apply insert_insert_ne.
Qed.

(** X26.  Submitting the search form puts the search box's text under the key
    [search], or removes that key when the box is empty, and keeps every
    other filter; submitting again changes nothing more.  Searching for a
    term and then submitting the emptied box, on a page that had no search
    filter, gives back the filters it had. *)
Theorem search_sets_one_key page (term : string) :
  let page' := (handleSearch page).1 in
  (∀ k', k' ≠ "search" → filters page' !! k' = filters page !! k') ∧
  filters page'
    !! "search" = (if bool_decide (searchTerm page ≠ "") then Some (searchTerm page)
                   else None) ∧
  handleSearch page' = handleSearch page ∧
  (filters page !! "search" = None →
   filters (handleSearch
              (App.onSearchTermChange ""
                 (handleSearch (App.onSearchTermChange term page)).1)).1
   = filters page).
Proof.
  unfold handleSearch, App.onSearchTermChange.
  cbn [fst snd filters searchTerm].
  split; [|split; [|split]].
  - intros k' Hne. destruct (bool_decide (searchTerm page ≠ "")).
    + by rewrite lookup_insert_ne.
    + by rewrite lookup_delete_ne.
  - destruct (bool_decide (searchTerm page ≠ "")).
    + by rewrite lookup_insert_eq.
    + by rewrite lookup_delete_eq.
  - destruct (bool_decide (searchTerm page ≠ ""));
      by rewrite ?insert_insert_eq, ?delete_delete_eq.
  - intros Hnone. rewrite (bool_decide_eq_false_2 ("" ≠ "")) by (intros H; by apply H).
    destruct (bool_decide (term ≠ "")).
    + by rewrite delete_insert_eq, delete_id.
    + by rewrite !delete_id by (by rewrite ?delete_id).
Qed.

End FilterFacts2.

(** ** Smaller views *)

Section ViewFacts.
Import App Views.

Lemma star_row (n : Z) :
  star n <$> [0; 1; 2; 3; 4]
  = replicate (Z.to_nat (0 `max` (n `min` 5))) "text-yellow-400"
    ++ replicate (5 - Z.to_nat (0 `max` (n `min` 5))) "text-gray-300".
Proof.
  assert (n ≤ 0 ∨ n = 1 ∨ n = 2 ∨ n = 3 ∨ n = 4 ∨ 5 ≤ n)
    as [H|[->|[->|[->|[->|H]]]]] by lia; try reflexivity.
  - replace (0 `max` (n `min` 5)) with 0 by lia.
    unfold star. cbn. by rewrite !bool_decide_eq_false_2 by lia.
  - replace (0 `max` (n `min` 5)) with 5 by lia.
    unfold star. cbn. by rewrite !bool_decide_eq_true_2 by lia.
Qed.

(** X27.  A product's rating shows as five stars, the filled ones first, as many
    of them as the whole part of the rating, at least none and at most
    five. *)
Theorem rating_stars_filled_first (rating : Q) :
  rating_stars rating
  = replicate (Z.to_nat (0 `max` (Qfloor rating `min` 5))) "text-yellow-400"
    ++ replicate (5 - Z.to_nat (0 `max` (Qfloor rating `min` 5))) "text-gray-300"
  ∧ length (rating_stars rating) = 5%nat
  ∧ (∀ stars : Z, 0 ≤ stars ≤ 5 →
       review_stars stars
       = replicate (Z.to_nat stars) "text-yellow-400"
         ++ replicate (5 - Z.to_nat stars) "text-gray-300").
Proof.
  split; [apply star_row|]. split; [done|].
  intros stars Hstars. unfold review_stars. rewrite star_row.
  by replace (0 `max` (stars `min` 5)) with stars by lia.
Qed.

(** A string without the separator is a single piece. *)
Lemma split_on_no_sep (sep : ascii) (s : string) :
  sep ∉ list_ascii_of_string s → split_on sep s = [s].
Proof.
  induction s as [|c s IH]; intros Hs; [done|].
  cbn in Hs. apply not_elem_of_cons in Hs as [Hc Hs].
  cbn. rewrite (proj2 (Ascii.eqb_neq c sep)) by congruence.
  by rewrite IH.
Qed.

Lemma split_on_app (sep : ascii) (a b : string) :
  sep ∉ list_ascii_of_string a →
  split_on sep (a +:+ String sep b) = a :: split_on sep b.
Proof.
  induction a as [|c a IH]; intros Ha.
  - change (split_on sep (String sep b) = "" :: split_on sep b).
    cbn [split_on]. by rewrite Ascii.eqb_refl.
  - cbn in Ha. apply not_elem_of_cons in Ha as [Hc Ha].
    change (split_on sep (String c (a +:+ String sep b))
            = String c a :: split_on sep b).
    cbn [split_on]. rewrite (proj2 (Ascii.eqb_neq c sep)) by congruence.
    by rewrite IH.
Qed.

(** X28.  The detail page takes its product identifier from the third
    piece of the pathname split at the slashes.  For a pathname of two
    segments, neither containing a slash, that is the second segment: for
    [/products/<segment>] the segment, in the form the browser reports it,
    whatever the first segment is called.  From a pathname of a single
    segment nothing is read. *)
Theorem productId_of_pathname (first segment : string) :
  "/"%char ∉ list_ascii_of_string first →
  "/"%char ∉ list_ascii_of_string segment →
  productId (String "/" (first +:+ String "/" segment)) = Some segment ∧
  productId ("/products/" +:+ segment) = Some segment ∧
  productId (String "/" first) = None.
Proof.
  intros Hfirst Hsegment. unfold productId.
  change ("/products/" +:+ segment)
    with (String "/" ("products" +:+ String "/" segment)).
  assert (∀ s, split_on "/" (String "/" s) = "" :: split_on "/" s) as Hhead
    by done.
  rewrite !Hhead.
  rewrite (split_on_app "/" first) by done.
  rewrite (split_on_app "/" "products")
    by (intros Hin; cbn in Hin;
        repeat (apply elem_of_cons in Hin as [Hin|Hin]; [discriminate Hin|]);
        by apply elem_of_nil in Hin).
  by rewrite !split_on_no_sep by done.
Qed.

(** X29.  The orders page never stays on its loading indicator once the fetch has
    settled; a failed fetch shows the same "no orders" message as an empty
    order history, and a non-empty answer is listed as it came. *)
Theorem orders_after_fetch (response : Result (list Order)) :
  OrdersPage_render (fetchOrders response OrdersPage_initial)
  = match response with
    | ok (o :: l) => order_list_view (o :: l)
    | ok [] => no_orders_view
    | failed _ => no_orders_view
    end.
Proof. by destruct response as [[|o l]|e]. Qed.

End ViewFacts.

(** ** The further properties at the sample data *)

Lemma sample_two_lines_live : live Samples.store Samples.cart_with_two_lines.
Proof.
  intros r Hr. apply elem_of_cons in Hr as [->|Hr]; [vm_compute; eauto|].
  apply list_elem_of_singleton in Hr as ->. vm_compute. eauto.
Defined.

Lemma sample_two_lines_distinct : NoDup (items Samples.cart_with_two_lines).
Proof.
  apply NoDup_cons. split; [|apply NoDup_singleton].
  intros Hin. apply list_elem_of_singleton in Hin. discriminate Hin.
Defined.

Lemma update_quantity_sets_witness :
  lines (cartReducer Samples.store Samples.cart_with_two_lines
                     (UPDATE_QUANTITY "laptop-2" 3)).1
        (cartReducer Samples.store Samples.cart_with_two_lines
                     (UPDATE_QUANTITY "laptop-2" 3)).2
  = [mkItem "laptop-2" 3 [("name", "Ultrabook")]; mkItem "laptop-1" 1 []]
  ∧
  lines (cartReducer Samples.store Samples.cart_with_two_lines
                     (UPDATE_QUANTITY "laptop-2" 3)).1
        Samples.cart_with_two_lines
  = [mkItem "laptop-2" 5 [("name", "Ultrabook")]; mkItem "laptop-1" 1 []].
Proof.
  destruct (update_quantity_sets Samples.store Samples.cart_with_two_lines
              "laptop-2" 3 sample_two_lines_live)
    as (Hnew & _ & _ & _ & Hold).
  split; [exact Hnew|exact Hold].
Defined.


Lemma remove_item_lines_witness :
  lines (cartReducer Samples.store Samples.cart_with_two_lines
                     (REMOVE_ITEM "laptop-1")).1
        (cartReducer Samples.store Samples.cart_with_two_lines
                     (REMOVE_ITEM "laptop-1")).2
  = filter (λ o, product_id o ≠ "laptop-1")
           (lines Samples.store Samples.cart_with_two_lines).
Proof.
  exact (proj1 (proj2 (remove_item_lines Samples.store
                         Samples.cart_with_two_lines "laptop-1"))).
Defined.

Lemma add_then_remove_witness :
  cartReducer
    (cartReducer Samples.store Samples.cart_with_one_line (ADD_ITEM 0%nat)).1
    (cartReducer Samples.store Samples.cart_with_one_line (ADD_ITEM 0%nat)).2
    (REMOVE_ITEM "laptop-1")
  = (Samples.store, Samples.cart_with_one_line).
Proof.
  exact (add_then_remove Samples.store Samples.cart_with_one_line 0%nat
           sample_no_line_for_laptop_1).
Defined.

Lemma cart_item_count_add_witness :
  cartItemCount
    (cartReducer Samples.store Samples.cart_with_two_lines (ADD_ITEM 1%nat)).1
    (cartReducer Samples.store Samples.cart_with_two_lines (ADD_ITEM 1%nat)).2
  = cartItemCount Samples.store Samples.cart_with_two_lines + 1.
Proof.
  exact (cart_item_count_add Samples.store Samples.cart_with_two_lines 1%nat
           sample_two_lines_distinct).
Defined.

Lemma reducer_keeps_well_formed_witness :
  CartShape.well_formed
    (cartReducer Samples.store Samples.cart_with_two_lines (UPDATE_QUANTITY "laptop-1" 4)).1
    (cartReducer Samples.store Samples.cart_with_two_lines (UPDATE_QUANTITY "laptop-1" 4)).2.
Proof.
  exact (proj1 (reducer_keeps_well_formed Samples.store
                  Samples.cart_with_two_lines (UPDATE_QUANTITY "laptop-1" 4)
                  (conj sample_two_lines_distinct sample_two_lines_live) I)).
Defined.

Lemma initial_cart_well_formed :
  CartShape.well_formed (App.objects App.initial) (App.cartState App.initial).
Proof.
  split; [apply NoDup_nil_2|]. intros r Hr. by apply elem_of_nil in Hr.
Defined.

Lemma rejected_requests_change_nothing_witness :
  App.fetchCart Fixtures.closed_shop App.initial
  = App.wrote (App.called App.initial App.GET_cart)
              (App.console_error ["Error fetching cart:"; "Network Error"])
  ∧
  App.cartLines (App.addToCart Fixtures.closed_shop "p-1" None App.initial)
  = App.cartLines App.initial.
Proof.
  destruct (rejected_requests_change_nothing Fixtures.closed_shop App.initial
              "Network Error") as (_ & _ & Hcart & Hadd & Hsame).
  split; [exact (Hcart eq_refl)|].
  rewrite (Hadd "p-1" None eq_refl). exact (proj1 (Hsame _ _)).
Defined.

Lemma fetched_cart_well_formed :
  CartShape.well_formed
    (App.objects (App.fetchCart Fixtures.shop App.initial))
    (App.cartState (App.fetchCart Fixtures.shop App.initial)).
Proof.
  split.
  - apply NoDup_singleton.
  - intros r Hr. apply list_elem_of_singleton in Hr as ->. vm_compute. eauto.
Defined.

Lemma addToCart_raises_count_witness :
  cartItemCount
    (App.objects (App.addToCart Fixtures.shop "p-1" None
                    (App.fetchCart Fixtures.shop App.initial)))
    (App.cartState (App.addToCart Fixtures.shop "p-1" None
                      (App.fetchCart Fixtures.shop App.initial)))
  = 3
  ∧
  cartItemCount
    (App.objects (App.addToCart_evaluating 1 Fixtures.shop "p-1" None
                    (App.fetchCart Fixtures.shop App.initial)))
    (App.cartState (App.addToCart_evaluating 1 Fixtures.shop "p-1" None
                      (App.fetchCart Fixtures.shop App.initial)))
  = 4
  ∧
  cartItemCount
    (App.objects (App.addToCart_evaluating 1 Fixtures.shop "p-2" (Some 5)
                    (App.fetchCart Fixtures.shop App.initial)))
    (App.cartState (App.addToCart_evaluating 1 Fixtures.shop "p-2" (Some 5)
                      (App.fetchCart Fixtures.shop App.initial)))
  = 7.
Proof.
  split; [|split].
  - exact (proj1 (addToCart_raises_count Fixtures.shop
                    (App.fetchCart Fixtures.shop App.initial) "p-1" None 0
                    fetched_cart_well_formed eq_refl)).
  - exact (proj1 (addToCart_raises_count Fixtures.shop
                    (App.fetchCart Fixtures.shop App.initial) "p-1" None 1
                    fetched_cart_well_formed eq_refl)).
  - exact (proj1 (addToCart_raises_count Fixtures.shop
                    (App.fetchCart Fixtures.shop App.initial) "p-2" (Some 5) 1
                    fetched_cart_well_formed eq_refl)).
Defined.

Lemma addToCart_twice_witness :
  App.cartLines
    (App.addToCart Fixtures.shop "p-1" None
       (App.addToCart Fixtures.shop "p-1" None App.initial))
  = [mkItem "p-1" 2 []]
  ∧
  App.cartLines
    (App.addToCart_evaluating 1 Fixtures.shop "p-1" None
       (App.addToCart_evaluating 1 Fixtures.shop "p-1" None App.initial))
  = [mkItem "p-1" 3 []].
Proof.
  split.
  - apply (addToCart_twice Fixtures.shop App.initial "p-1" 0).
    + intros r Hr. by apply elem_of_nil in Hr.
    + intros o Ho. by apply elem_of_nil in Ho.
    + reflexivity.
    + reflexivity.
  - apply (addToCart_twice Fixtures.shop App.initial "p-1" 1).
    + intros r Hr. by apply elem_of_nil in Hr.
    + intros o Ho. by apply elem_of_nil in Ho.
    + reflexivity.
    + reflexivity.
Defined.

Lemma app_cart_one_line_per_product_witness :
  distinct_products
    (App.objects (App.run Fixtures.shop
                    [App.do_fetchCart; App.do_addToCart "p-1" None] App.initial))
    (App.cartState (App.run Fixtures.shop
                      [App.do_fetchCart; App.do_addToCart "p-1" None] App.initial)).
Proof.
  apply (app_cart_one_line_per_product Fixtures.shop).
  intros hist l Hl. injection Hl as <-. apply NoDup_singleton.
Defined.


Lemma catalog_requests_have_no_empty_parameter_witness :
  App.no_empty_value {["brand" := "Dell"]}.
Proof.
  apply (catalog_requests_have_no_empty_parameter Fixtures.shop
           [App.filter_changed "brand" "Dell"; App.search_typed "xps";
            App.search_submitted]).
  apply list_elem_of_here.
Defined.

Lemma mount_without_token_witness :
  Auth.mount_effect Fixtures.accepting Samples.backend Fixtures.signed_out_browser
  = (Auth.normal tt, Fixtures.signed_out_browser).
Proof.
  apply (mount_without_token Fixtures.accepting Samples.backend
           Fixtures.signed_out_browser).
  left. reflexivity.
Defined.

Lemma mount_with_valid_token_witness :
  Auth.user
    (Auth.mount_effect Fixtures.accepting Samples.backend
                       Samples.returning_browser).2
  = Some "tok-1".
Proof.
  rewrite (mount_with_valid_token Fixtures.accepting Samples.backend
             Samples.returning_browser "stale" "tok-1");
    [reflexivity|reflexivity|discriminate|reflexivity].
Defined.

Lemma login_establishes_session_witness :
  ∃ w',
    Auth.login Fixtures.accepting Samples.backend Fixtures.token_of
               "credentials" Fixtures.signed_out_browser
    = (Auth.normal "tok-1", w') ∧
    Auth.localStorage w' !! "token" = Some "tok-1" ∧
    Auth.headers_common w' !! "Authorization" = Some "Bearer tok-1".
Proof.
  destruct (login_establishes_session Fixtures.accepting Samples.backend
              Fixtures.token_of Fixtures.signed_out_browser
              "credentials" "tok-1" "tok-1" eq_refl eq_refl)
    as (w' & Hlogin & Htoken & Hheader & _).
  exists w'. split; [exact Hlogin|]. split; [exact Htoken|exact Hheader].
Defined.

Lemma login_rejected_keeps_session_witness :
  (Auth.login Samples.refusing Samples.backend Fixtures.token_of
              "credentials" Fixtures.signed_out_browser).1
  = Auth.throw "Request failed with status code 401"
  ∧
  (Pages.LoginPage_handleSubmit Samples.refusing Samples.backend
     Fixtures.token_of "credentials"
     (Fixtures.signed_out_browser, Pages.mkLoginPage "" None)).2
  = Pages.mkLoginPage "Invalid email or password" None.
Proof.
  destruct (login_rejected_keeps_session Samples.refusing Samples.backend
              Fixtures.token_of Fixtures.signed_out_browser "credentials"
              "Request failed with status code 401"
              (Pages.mkLoginPage "" None) eq_refl)
    as (Hthrow & _ & _ & _ & _ & Hpage).
  split; [exact Hthrow|exact Hpage].
Defined.

Lemma login_with_failed_profile_witness :
  Auth.localStorage
    (Auth.login Fixtures.login_only Samples.backend Fixtures.token_of
                "credentials" Fixtures.signed_out_browser).2
    !! "token" = None
  ∧
  (Pages.LoginPage_handleSubmit Fixtures.login_only Samples.backend
     Fixtures.token_of "credentials"
     (Fixtures.signed_out_browser, Pages.mkLoginPage "" None)).2
  = Pages.mkLoginPage "" (Some "/").
Proof.
  destruct (login_with_failed_profile Fixtures.login_only Samples.backend
              Fixtures.token_of Fixtures.signed_out_browser "credentials"
              "tok-1" "Request failed with status code 500"
              (Pages.mkLoginPage "" None) eq_refl eq_refl)
    as (_ & Htoken & _ & _ & _ & Hpage).
  split; [exact Htoken|exact Hpage].
Defined.

Lemma logout_signs_out_witness :
  Auth.user (Auth.logout Fixtures.signed_in_browser).2 = None
  ∧
  Auth.localStorage (Auth.logout Fixtures.signed_in_browser).2
  = {["theme" := "dark"]}
  ∧
  Pages.ProtectedRoute Fixtures.nonempty (Auth.logout Fixtures.signed_in_browser).2
  = Pages.navigate_to "/login".
Proof.
  destruct (logout_signs_out Fixtures.nonempty Fixtures.signed_in_browser)
    as (_ & Hstorage & _ & _ & _ & Huser & _ & _ & Hguard).
  split; [exact Huser|]. split; [exact Hstorage|exact (Hguard eq_refl)].
Defined.

Lemma session_stays_consistent_witness :
  Pages.session_consistent
    (Pages.session_run Fixtures.login_only Samples.backend Fixtures.token_of
       [Pages.do_login "credentials"; Pages.do_register "form"; Pages.do_logout]
       (Auth.mount_effect Fixtures.login_only Samples.backend
                          Samples.returning_browser).2).
Proof.
  apply (session_stays_consistent Fixtures.login_only Samples.backend
           Fixtures.token_of Samples.returning_browser).
  - reflexivity.
  - vm_compute. discriminate.
Defined.

Lemma filter_change_touches_one_key_witness :
  Catalog.filters (Catalog.handleFilterChange Fixtures.branded_page "brand" "HP").1
    !! "category" = Some "Gaming".
Proof.
  destruct (filter_change_touches_one_key Fixtures.branded_page "brand" "HP")
    as (Hother & _).
  rewrite (Hother "category"); [reflexivity|discriminate].
Defined.

Lemma filter_changes_compose_witness :
  Catalog.filters
    (Catalog.handleFilterChange
       (Catalog.handleFilterChange Fixtures.branded_page "brand" "HP").1
       "min_price" "500").1
  = Catalog.filters
      (Catalog.handleFilterChange
         (Catalog.handleFilterChange Fixtures.branded_page "min_price" "500").1
         "brand" "HP").1.
Proof.
  destruct (filter_changes_compose Fixtures.branded_page "brand" "HP" "Dell"
              "min_price" "500") as [_ Hcommute].
  apply Hcommute. discriminate.
Defined.

Lemma search_sets_one_key_witness :
  Catalog.filters
    (Catalog.handleSearch
       (App.onSearchTermChange ""
          (Catalog.handleSearch
             (App.onSearchTermChange "xps" Fixtures.branded_page)).1)).1
  = Catalog.filters Fixtures.branded_page.
Proof.
  destruct (search_sets_one_key Fixtures.branded_page "xps")
    as (_ & _ & _ & Hround).
  apply Hround. reflexivity.
Defined.

Lemma rating_stars_filled_first_witness :
  Views.review_stars 3
  = ["text-yellow-400"; "text-yellow-400"; "text-yellow-400";
     "text-gray-300"; "text-gray-300"].
Proof.
  destruct (rating_stars_filled_first (9 # 2)) as (_ & _ & Hreview).
  rewrite (Hreview 3); [reflexivity|lia].
Defined.

Lemma productId_of_pathname_witness :
  Views.productId "/products/abc-1" = Some "abc-1"
  ∧
  Views.productId "/products" = None.
Proof.
  destruct (productId_of_pathname "products" "abc-1") as (Hid & _ & Hnone).
  - intros Hin. cbn in Hin.
    repeat (apply elem_of_cons in Hin as [Hin|Hin]; [discriminate Hin|]).
    by apply elem_of_nil in Hin.
  - intros Hin. cbn in Hin.
    repeat (apply elem_of_cons in Hin as [Hin|Hin]; [discriminate Hin|]).
    by apply elem_of_nil in Hin.
  - split; [exact Hid|exact Hnone].
Defined.
